(** * mtk-flashtool-py: the serial bootstrap protocol of [main.py]

    A shallow embedding of the host side of the MediaTek BootROM /
    Preloader protocol: port discovery, byte transport, handshake,
    command/response primitive, chip identification, DA header parsing,
    DA transfer and the auth / qualification exchanges.

    Python values are kept as the program has them: frames are
    lower-case hexadecimal strings, the chip table is a dictionary of
    dictionaries that [get_chip_id] updates in place, [sys.exit] and
    run-time errors are exceptions, a function without [return] gives
    [None].  The serial device is an arbitrary deterministic machine
    that reacts to every byte written, every sleep and every look at the
    port; loops that the program does not bound ([while not
    s.in_waiting], a blocking [s.read], the retry loop of the handshake)
    run on a budget, and a run that spends it has not returned.

    The first part holds the program; the second part the notions and
    sample sessions used in the statements; the third the properties. *)

From Stdlib Require Import ZArith NArith List String Ascii HexadecimalString Lia Sorted.
From Stdlib.Strings Require Import Byte.
From stdpp Require Import base gmap strings list pretty.

Local Open Scope string_scope.

(** ** Hexadecimal text: [bytes.hex()], ["{0:02x}".format], [bytes.fromhex] *)

Module Hex.

Definition digit (n : N) : ascii :=
  match n with
  | 0 => "0" | 1 => "1" | 2 => "2" | 3 => "3" | 4 => "4" | 5 => "5"
  | 6 => "6" | 7 => "7" | 8 => "8" | 9 => "9" | 10 => "a" | 11 => "b"
  | 12 => "c" | 13 => "d" | 14 => "e" | _ => "f"
  end%char%N.

(** [b.hex()] for a single byte, which is also ["{0:02x}".format(b)]. *)
Definition of_byte (b : byte) : string :=
  let n := Byte.to_N b in
  String (digit (n / 16)) (String (digit (n mod 16)) EmptyString).

Definition of_bytes (bs : list byte) : string :=
  String.concat "" (map of_byte bs).

Definition digit_val (c : ascii) : option N :=
  let n := N_of_ascii c in
  if (48 <=? n)%N && (n <=? 57)%N then Some (n - 48)%N
  else if (97 <=? n)%N && (n <=? 102)%N then Some (n - 87)%N
  else if (65 <=? n)%N && (n <=? 70)%N then Some (n - 55)%N
  else None.

(** ASCII white space: the space and the characters 9 to 13
    (tab, line feed, vertical tab, form feed, carriage return). *)
Definition is_space (c : ascii) : bool :=
  let n := N_of_ascii c in
  (n =? 32)%N || ((9 <=? n)%N && (n <=? 13)%N).

(** [bytes.fromhex(s)] and [bytearray.fromhex(s)]: white space is
    skipped before each byte and at the end, never between the two
    digits of a byte; [None] stands for the [ValueError] Python raises
    on a character that is no hexadecimal digit and on a byte with one
    digit. *)
Fixpoint fromhex (s : string) : option (list byte) :=
  match s with
  | EmptyString => Some []
  | String c1 rest1 =>
      if is_space c1 then fromhex rest1
      else
        match rest1 with
        | EmptyString => None
        | String c2 rest =>
            match digit_val c1, digit_val c2, fromhex rest with
            | Some h, Some l, Some bs =>
                match Byte.of_N (h * 16 + l) with
                | Some b => Some (b :: bs)
                | None => None
                end
            | _, _, _ => None
            end
        end
  end.

(** The number of characters of [s] that are not white space. *)
Fixpoint solid (s : string) : nat :=
  match s with
  | EmptyString => 0
  | String c rest => if is_space c then solid rest else S (solid rest)
  end.

(** Digits of [hex(n)] after the ["0x"] prefix. *)
Definition digits (n : N) : string :=
  NilZero.string_of_uint (N.to_hex_uint n).

(** Python's [hex(z)]. *)
Definition py_hex (z : Z) : string :=
  if (z <? 0)%Z then "-0x" +:+ digits (Z.to_N (- z))
  else "0x" +:+ digits (Z.to_N z).

End Hex.

(** [int.from_bytes(bs, "big")] *)
Definition int_from_bytes_big (bs : list byte) : Z :=
  fold_left (fun acc b => (acc * 256 + Z.of_N (Byte.to_N b))%Z) bs 0%Z.

(** [unpack("<I", bs)[0]]: defined on exactly four bytes. *)
Definition unpack_le32 (bs : list byte) : option Z :=
  match bs with
  | [b0; b1; b2; b3] =>
      Some (Z.lor (Z.of_N (Byte.to_N b0))
           (Z.lor (Z.shiftl (Z.of_N (Byte.to_N b1)) 8)
           (Z.lor (Z.shiftl (Z.of_N (Byte.to_N b2)) 16)
                  (Z.shiftl (Z.of_N (Byte.to_N b3)) 24))))
  | _ => None
  end.

(** [l[lo:hi]] for [0 <= lo <= hi]: Python clamps the slice to the length. *)
Definition slice {A} (lo hi : nat) (l : list A) : list A :=
  take (hi - lo) (drop lo l).

Definition nl : string := String "010"%char EmptyString.

(** ** Python values the program handles *)

(** Values stored in a chip descriptor dictionary. *)
Inductive Field :=
| FInt (z : Z)
| FStr (s : string).

(** [str(v)], as ["{}".format(v)] renders a field. *)
Definition py_str (v : Field) : string :=
  match v with
  | FInt z => pretty z
  | FStr s => s
  end.

(** What a function of the program hands back to its caller. *)
Inductive PyVal :=
| PyNone
| PyBool (b : bool)
| PyBytes (bs : list byte).

Inductive Exn :=
| TypeError
| ValueError
| StructError
| KeyErrorInt (k : Z)
| KeyErrorStr (k : string)
| IndexError
| FileNotFoundError (path : string)
| SystemExit (code : Z).

(** ** chip_mapping.py *)

Definition chip_map : gmap Z (gmap string Field) :=
  {[ 0x766%Z :=
       <["id" := FInt 0x766]>
       (<["name" := FStr "MT6765"]>
       (<["hw_code" := FInt 0x6765]>
       (<["da_load_addr" := FInt 0x200000]>
       (<["da_sig_len" := FInt 0x100]> ∅)))) ]}.

(** ** The serial device on the other end of the port *)

Inductive Event :=
| Wrote (b : byte)     (* the host handed one byte to [s.write] *)
| Slept (ms : N)       (* the host slept for [ms] milliseconds *)
| Idle.                (* the host looked at the port, or is blocked on it *)

(** A device is any deterministic reactive machine: at each event it
    moves to a new state and may deliver bytes to the host. *)
Record Device := mkDevice {
  dstate : Type;
  react : Event → dstate → dstate * list byte;
}.

(** ** File objects: [open(path, 'rb')], [seek], [tell], [read] *)

Record FileObj := mkFile {
  f_data : list byte;
  f_pos : nat;
}.

Definition f_seek (pos : nat) (f : FileObj) : FileObj := mkFile (f_data f) pos.
Definition f_tell (f : FileObj) : nat := f_pos f.

(** [f.read(n)] returns what is left when fewer than [n] bytes remain. *)
Definition f_read (n : nat) (f : FileObj) : list byte * FileObj :=
  let bs := take n (drop (f_pos f) (f_data f)) in
  (bs, mkFile (f_data f) (f_pos f + length bs)).

(** [s.split('x')[1]]: the text between the first and the second ['x'];
    [None] is the [IndexError] when [s] has no ['x']. *)
Fixpoint until_x (s : string) : string :=
  match s with
  | EmptyString => EmptyString
  | String c r => if Ascii.eqb c "x" then EmptyString else String c (until_x r)
  end.

Fixpoint split_x_1 (s : string) : option string :=
  match s with
  | EmptyString => None
  | String c r => if Ascii.eqb c "x" then Some (until_x r) else split_x_1 r
  end.

(** ** The world the program runs in, and the monad of its functions *)

Section Program.

Context {D : Device}.

Record World := mkWorld {
  dev : dstate D;                          (* the device's own state *)
  rx : list byte;                          (* received, not yet read *)
  tx : list byte;                          (* every byte given to [s.write] *)
  naps : list N;                           (* every [time.sleep], in ms *)
  stdout : list string;                    (* one entry per [print] *)
  cur_chip_map : gmap Z (gmap string Field); (* the global [chip_map] *)
  files : gmap string (list byte);         (* files the program opens *)
}.

(** The world [w] after the [print]s [lines]. *)
Definition printed_all (lines : list string) (w : World) : World :=
  mkWorld (dev w) (rx w) (tx w) (naps w) (stdout w ++ lines) (cur_chip_map w) (files w).

(** The world [w] after one more [print]. *)
Definition printed (line : string) (w : World) : World := printed_all [line] w.

(** The world [w] with [r] left in the receive buffer. *)
Definition with_rx (r : list byte) (w : World) : World :=
  mkWorld (dev w) r (tx w) (naps w) (stdout w) (cur_chip_map w) (files w).

(** The world [w] with its chip table replaced by [m]. *)
Definition with_table (m : gmap Z (gmap string Field)) (w : World) : World :=
  mkWorld (dev w) (rx w) (tx w) (naps w) (stdout w) m (files w).

Inductive Res (A : Type) :=
| Ok (a : A) (w : World)
| Raise (e : Exn) (w : World)
| Diverge.
Arguments Ok {A}. Arguments Raise {A}. Arguments Diverge {A}.

(** A computation reads the loop budget, runs on a world, and returns,
    raises, or is still looping when the budget is spent. *)
Definition M (A : Type) : Type := nat → World → Res A.

Definition ret {A} (a : A) : M A := λ _ w, Ok a w.
Definition bind {A B} (m : M A) (k : A → M B) : M B := λ fuel w,
  match m fuel w with
  | Ok a w' => k a fuel w'
  | Raise e w' => Raise e w'
  | Diverge => Diverge
  end.

Notation "'let*' x ':=' m 'in' k" := (bind m (λ x, k))
  (at level 10, x pattern, m at level 100, k at level 200, only parsing).
Notation "m >> k" := (bind m (λ _, k))
  (at level 100, k at level 200, right associativity, only parsing).

Definition raise {A} (e : Exn) : M A := λ _ w, Raise e w.
Definition diverge {A} : M A := λ _ _, Diverge.
Definition with_budget {A} (f : nat → M A) : M A := λ fuel w, f fuel fuel w.
Definition get_world : M World := λ _ w, Ok w w.
Definition of_option {A} (e : Exn) (o : option A) : M A :=
  match o with Some a => ret a | None => raise e end.

(** *** Primitive effects *)

Definition deliver (ev : Event) (w : World) : World :=
  let '(d, bs) := react D ev (dev w) in
  mkWorld d (rx w ++ bs) (tx w) (naps w) (stdout w) (cur_chip_map w) (files w).

Definition sent (b : byte) (w : World) : World :=
  let w := deliver (Wrote b) w in
  mkWorld (dev w) (rx w) (tx w ++ [b]) (naps w) (stdout w) (cur_chip_map w) (files w).

(** [s.write(bs)] *)
Definition s_write (bs : list byte) : M unit :=
  λ _ w, Ok tt (fold_left (λ w b, sent b w) bs w).

(** [s.in_waiting] *)
Definition s_in_waiting : M nat :=
  λ _ w, let w := deliver Idle w in Ok (length (rx w)) w.

(** [s.read(1)] on a port opened without a time-out: blocks until a
    byte is there. *)
Fixpoint block_read (n : nat) : M byte := λ fuel w,
  match rx w with
  | b :: rest => Ok b (with_rx rest w)
  | [] =>
      match n with
      | O => Diverge
      | S n => block_read n fuel (deliver Idle w)
      end
  end.
Definition s_read1 : M byte := with_budget block_read.

(** [time.sleep(ms / 1000)] *)
Definition sleep (ms : N) : M unit := λ _ w,
  let w := deliver (Slept ms) w in
  Ok tt (mkWorld (dev w) (rx w) (tx w) (naps w ++ [ms]) (stdout w) (cur_chip_map w) (files w)).

Definition print (line : string) : M unit := λ _ w, Ok tt (printed line w).

Definition set_chip_map (m : gmap Z (gmap string Field)) : M unit := λ _ w,
  Ok tt (with_table m w).

(** [open(path, 'rb').read()] *)
Definition read_file (path : string) : M (list byte) :=
  let* w := get_world in of_option (FileNotFoundError path) (files w !! path).

(** ** main.py *)

Definition SKIP_SLA : bool := false.
Definition DEBUG : bool := false.

Definition hex_list_to_str (hex_list : list string) : string :=
  "[ " +:+ String.concat " " hex_list +:+ " ]".

Fixpoint write_serial_raw_go (data : list byte) (nowrite : bool)
    (sdata : list string) : M (list string) :=
  match data with
  | [] => ret sdata
  | cmd_byte :: data =>
      let hex_byte := Hex.of_byte cmd_byte in
      (if nowrite then ret tt
       else let* bs := of_option ValueError (Hex.fromhex hex_byte) in s_write bs) >>
      write_serial_raw_go data nowrite (sdata ++ [hex_byte])
  end.

Definition write_serial_raw (data : list byte) (nowrite : bool) : M unit :=
  let* sdata := write_serial_raw_go data nowrite [] in
  if DEBUG then print ("TX -> " +:+ hex_list_to_str sdata) else ret tt.

Definition write_serial (data : string) : M unit :=
  let* cmd_bytes := of_option ValueError (Hex.fromhex data) in
  write_serial_raw cmd_bytes false.

Fixpoint read_serial_go (byte_count : nat) (acc : list string) : M (list string) :=
  match byte_count with
  | O => ret acc
  | S n => let* b := s_read1 in read_serial_go n (acc ++ [Hex.of_byte b])
  end.

Definition read_serial (byte_count : nat) : M (list string) :=
  let* r := read_serial_go byte_count [] in
  (if DEBUG then print ("RX <- " +:+ hex_list_to_str r) else ret tt) >>
  ret r.

(** *** try_handshake *)

Definition handshake_data : string := "a00a5005".
Definition handshake_magic : string := "5ff5affa".
Definition preloader_greet : string := Hex.of_bytes [x52; x45; x41; x44; x59].

(** [while not s.in_waiting: continue] *)
Fixpoint spin (n : nat) : M unit :=
  match n with
  | O => diverge
  | S n => let* k := s_in_waiting in
           if Nat.eqb k 0 then spin n else ret tt
  end.

(** [for i in range(rb_count): rdata += ''.join(read_serial(s, 1))] *)
Fixpoint drain (rb_count : nat) (rdata : string) : M string :=
  match rb_count with
  | O => ret rdata
  | S n => let* r := read_serial 1 in
           drain n (rdata +:+ String.concat "" r)
  end.

(** The body of the [for cmd_byte in cmd_bytes] loop up to its [if]. *)
Definition handshake_byte (cmd_byte : byte) (rdata : string) : M string :=
  let _data := Hex.of_byte cmd_byte in
  write_serial _data >>
  with_budget spin >>
  let* r := read_serial 1 in
  let rdata := rdata +:+ String.concat "" r in
  let* rb_count := s_in_waiting in
  drain rb_count rdata.

(** The [for] loop over the magic; the state is
    [(rdata, retry, is_preloader)] and a [break] leaves [retry] as it is. *)
Fixpoint handshake_for (cmd_bytes : list byte) (rdata : string)
    (retry is_preloader : bool) : M (string * bool * bool) :=
  match cmd_bytes with
  | [] => ret (rdata, retry, is_preloader)
  | cmd_byte :: cmd_bytes =>
      let* rdata := handshake_byte cmd_byte rdata in
      if String.eqb rdata preloader_greet
      then ret (rdata, retry, true)
      else handshake_for cmd_bytes rdata false is_preloader
  end.

(** [while retry: rdata = ''; for ...] *)
Fixpoint handshake_while (n : nat) (cmd_bytes : list byte)
    (is_preloader : bool) : M (string * bool) :=
  match n with
  | O => diverge
  | S n =>
      let* (rdata, retry, is_preloader) :=
        handshake_for cmd_bytes "" true is_preloader in
      if retry then handshake_while n cmd_bytes is_preloader
      else ret (rdata, is_preloader)
  end.

(** The three-way test on the accumulated answer that ends
    [try_handshake]. *)
Definition handshake_verdict (port rdata : string) (is_preloader : bool)
    : M PyVal :=
  if String.eqb rdata handshake_magic then
    print ("Handshake success! Found MTK device at " +:+ port) >>
    print ("Device connected via " +:+
           (if is_preloader then "Preloader" else "BootROM")) >>
    ret (PyBool true)
  else if String.eqb rdata handshake_data then
    print "Handshake complete. Warning: device returned input data. (Is Handshake already done?)" >>
    ret PyNone
  else
    print "Handshake failed! Aborting." >>
    raise (SystemExit 0).

Definition try_handshake (port : string) : M PyVal :=
  print (nl +:+ "Attempting handshake on [" +:+ port +:+ "]...") >>
  let data := handshake_data in
  let* cmd_bytes := of_option ValueError (Hex.fromhex data) in
  let* (rdata, is_preloader) :=
    with_budget (λ n, handshake_while n cmd_bytes false) in
  handshake_verdict port rdata is_preloader.

(** *** check_preloader *)

Definition check_preloader : M PyVal :=
  print (nl +:+ "Checking preloader version...") >>
  let data := "fe" in
  write_serial data >>
  let* r := read_serial 1 in
  let rb := String.concat "" r in
  (if String.eqb rb data
   then print "Invalid preloader version! BootROM connection."
   else print ("Preloader version = 0x" +:+ rb)) >>
  ret PyNone.

(** *** read_resp, bstr_to_int, get_chip_id *)

(** The polling loop of [read_resp]; [ctr] is the loop counter. *)
Fixpoint poll (n : nat) (ctr : Z) : M Z :=
  match n with
  | O => diverge
  | S n =>
      let* k := s_in_waiting in
      if Nat.eqb k 0 then
        sleep 100 >>
        if (ctr =? 15)%Z then ret ctr
        else poll n (ctr + 1)%Z
      else ret ctr
  end.

(** [inital_sleep] is in milliseconds; the program's default is 0.1 s.
    [None] is the [None] Python returns when the function body ends
    without a [return]. *)
Definition read_resp (cmd : string) (inital_sleep : N) : M (option (list string)) :=
  write_serial cmd >>
  let* r := read_serial 1 in
  if String.eqb (String.concat "" r) cmd then
    (if DEBUG then print ("ACK - [ " +:+ cmd +:+ " ]") else ret tt) >>
    let ctr := 0%Z in
    sleep inital_sleep >>
    let* _ := with_budget (λ n, poll n ctr) in
    let* k := s_in_waiting in
    let* r := read_serial k in
    ret (Some r)
  else ret None.

(** [''.join(None)] is a [TypeError]. *)
Definition bstr_to_int (bstr : option (list string)) : M Z :=
  match bstr with
  | None => raise TypeError
  | Some l =>
      let* bs := of_option ValueError (Hex.fromhex (String.concat "" l)) in
      ret (int_from_bytes_big bs)
  end.

(** A descriptor is handed around by reference: the inner dictionaries
    live in [chip_map] only, so a reference is the key of its entry. *)
Definition dict_get (ref : Z) (key : string) : M Field :=
  let* w := get_world in
  match cur_chip_map w !! ref with
  | Some d => of_option (KeyErrorStr key) (d !! key)
  | None => raise (KeyErrorInt ref)
  end.

Definition dict_set (ref : Z) (key : string) (v : Field) : M unit :=
  let* w := get_world in
  set_chip_map (alter (insert key v) ref (cur_chip_map w)).

(** [hex(v)] *)
Definition hex_of_field (v : Field) : M string :=
  match v with
  | FInt z => ret (Hex.py_hex z)
  | FStr _ => raise TypeError
  end.

Definition print_hex_field (label : string) (ref : Z) (key : string) : M unit :=
  let* v := dict_get ref key in
  let* h := hex_of_field v in
  print (label +:+ " " +:+ h).

(** The two queries of [get_chip_id] and their decoding. *)
Definition chip_queries : M (Z * Z) :=
  let hw_code_cmd := "fd" in
  let hw_sub_cmd := "fc" in
  let* r := read_resp hw_code_cmd 100 in
  let* hw_code_resp := bstr_to_int r in
  let* r := read_resp hw_sub_cmd 100 in
  let* hw_sub_resp := bstr_to_int r in
  ret (hw_code_resp, hw_sub_resp).

(** The banner [get_chip_id] prints, and its [return chip_config]. *)
Definition chip_report (chip_config : Z) : M Z :=
  print "==============================" >>
  print "======= Chip detected! =======" >>
  print "==============================" >>
  let* name := dict_get chip_config "name" in
  let* id := dict_get chip_config "id" in
  let* hid := hex_of_field id in
  print ("======= " +:+ py_str name +:+ " (" +:+ hid +:+ ") =======") >>
  print_hex_field "  Hardware Code:" chip_config "hw_code" >>
  print_hex_field "  Hardware Sub-code:" chip_config "hw_sub_code" >>
  print_hex_field "  Hardware Version:" chip_config "hw_version" >>
  print_hex_field "  Software Version:" chip_config "sw_version" >>
  print "==============================" >>
  ret chip_config.

(** The table look-up of [get_chip_id] and everything after it;
    [chip_config] is a reference to the table's own entry. *)
Definition chip_fill (hw_code_resp hw_sub_resp : Z) : M Z :=
  let* w := get_world in
  let key := Z.shiftr hw_code_resp 16 in
  let* chip_config :=
    match cur_chip_map w !! key with
    | Some _ => ret key
    | None => raise (KeyErrorInt key)
    end in
  dict_set chip_config "hw_sub_code" (FInt (Z.shiftr (Z.shiftr hw_sub_resp 32) 16)) >>
  dict_set chip_config "hw_version" (FInt (Z.land (Z.shiftr hw_sub_resp 32) 0xFFFF)) >>
  dict_set chip_config "sw_version" (FInt (Z.land hw_sub_resp 0xFFFFFFFF)) >>
  chip_report chip_config.

Definition get_chip_id : M Z :=
  print (nl +:+ "Querying Chip ID...") >>
  let* (hw_code_resp, hw_sub_resp) := chip_queries in
  chip_fill hw_code_resp hw_sub_resp.

(** *** send_auth_file, qualify_host *)

Definition load_auth_file : M (list byte) := read_file "auth_sv5.auth".

Definition send_auth_file : M PyVal :=
  print (nl +:+ "Loading and sending auth file") >>
  let data := "e2" in
  write_serial data >>
  let* r := read_serial 1 in
  if String.eqb (String.concat "" r) data then
    let data := "000008d0" in
    write_serial data >>
    let* r := read_serial 4 in
    if String.eqb (String.concat "" r) data then
      read_serial 2 >>
      let* auth := load_auth_file in
      write_serial_raw auth false >>
      read_serial 2 >>
      let* r := read_serial 2 in
      if String.eqb (String.concat "" r) "0000" then
        print "Auth file send success!" >> ret PyNone
      else
        print "Failed to send auth file! Aborting." >> raise (SystemExit 0)
    else
      print "Bad command! Aborting." >> raise (SystemExit 0)
  else
    print "Send Auth File failed! Aborting." >> raise (SystemExit 0).

(** [for x in l: body(x)] *)
Fixpoint for_each {A} (l : list A) (body : A → M unit) : M unit :=
  match l with
  | [] => ret tt
  | x :: l => body x >> for_each l body
  end.

Definition qualify_host : M PyVal :=
  print (nl +:+ "Qualify Host") >>
  if SKIP_SLA then
    print "Skipping qualify host! (SLA_Challenge)" >> ret PyNone
  else
    let data := "e3" in
    write_serial data >>
    let* r := read_serial 1 in
    if String.eqb (String.concat "" r) data then
      read_serial 2 >>
      read_serial 4 >>
      let* ip := read_serial 16 in
      let data := "00000100" in
      write_serial data >>
      let* r := read_serial 4 in
      if String.eqb (String.concat "" r) data then
        read_serial 2 >>
        for_each (seq 0 16) (λ _, write_serial (String.concat "" ip)) >>
        read_serial 2 >>
        ret PyNone
      else ret PyNone
    else ret PyNone.

(** *** load_da, send_da *)

(** The [for i in range(da_count)] loop of [load_da], threading the
    file object [f]. *)
Fixpoint load_da_records (da_count : nat) (f : FileObj) : M FileObj :=
  match da_count with
  | O => ret f
  | S n =>
      let (bs, f) := f_read 4 f in
      let* word := of_option StructError (unpack_le32 bs) in
      let hw_code := Hex.py_hex (Z.shiftr word 16) in
      let* tail := of_option IndexError (split_x_1 hw_code) in
      print ("    - MT" +:+ tail) >>
      let f := f_seek (f_tell f + 220 - 4) f in
      load_da_records n f
  end.

(** [load_da] up to its last statement, returning the local file
    object [f] so that its cursor can be read off. *)
Definition load_da_locals : M FileObj :=
  let target_da := "MTK_AllInOne_DA.bin" in
  let* content := read_file target_da in
  let f := mkFile content 0 in
  let pos := 0x68%nat in
  let f := f_seek pos f in
  print (nl +:+ "==============================") >>
  print "========= DA Loader ==========" >>
  print "==============================" >>
  print ("  Loading " +:+ target_da +:+ "...") >>
  print "  Supported Chips: " >>
  let (bs, f) := f_read 4 f in
  let* da_count := of_option StructError (unpack_le32 bs) in
  let* f := load_da_records (Z.to_nat da_count) f in
  print ("  Loaded DA!" +:+ nl +:+ "  Found " +:+ pretty da_count +:+ " supported chips.") >>
  print "==============================" >>
  ret f.

(** The function has no [return]: its caller gets [None]. *)
Definition load_da : M PyVal :=
  load_da_locals >> ret PyNone.

(** [len(v)] *)
Definition py_len (v : PyVal) : M nat :=
  match v with
  | PyBytes bs => ret (length bs)
  | PyNone | PyBool _ => raise TypeError
  end.

(** [v[lo:hi]] *)
Definition py_slice (v : PyVal) (lo hi : nat) : M (list byte) :=
  match v with
  | PyBytes bs => ret (slice lo hi bs)
  | PyNone | PyBool _ => raise TypeError
  end.

Definition CHUNK : nat := Eval cbv in N.to_nat 8192.

(** The transfer loop of [send_da] over the value [ba];
    [int(len(ba) / 8192)] is the floor of the quotient for every length
    a [bytes] object can have. *)
Definition send_da_body (ba : PyVal) : M unit :=
  let* n := py_len ba in
  for_each (seq 0 (n / CHUNK))
    (λ i, let* chunk := py_slice ba (i * CHUNK) ((i + 1) * CHUNK) in
          write_serial_raw chunk false).

Definition send_da : M PyVal :=
  print (nl +:+ "Send DA") >>
  let data := "d7" in
  write_serial data >>
  let* r := read_serial 1 in
  if String.eqb (String.concat "" r) data then
    let data := "00200000" in
    write_serial data >>
    let* r := read_serial 4 in
    if negb (String.eqb (String.concat "" r) data) then ret PyNone else
    let data := "000361a8" in
    write_serial data >>
    let* r := read_serial 4 in
    if negb (String.eqb (String.concat "" r) data) then ret PyNone else
    let data := "00000100" in
    write_serial data >>
    let* r := read_serial 4 in
    if negb (String.eqb (String.concat "" r) data) then ret PyNone else
    read_serial 2 >>
    let* ba := load_da in
    print "Loaded DA. Sending..." >>
    send_da_body ba >>
    read_serial 2 >>
    read_serial 2 >>
    ret PyNone
  else ret PyNone.

End Program.

Arguments World D : clear implicits.
Arguments Res D A : clear implicits.
Arguments M D A : clear implicits.
Arguments Ok {D A}.
Arguments Raise {D A}.
Arguments Diverge {D A}.

(** ** serial_ports

    The one function of main.py that runs before a port is open. *)

(** What [serial_ports] asks of the machine it runs on: [sys.platform],
    [glob.glob], and whether [serial.Serial(port)] followed by
    [s.close()] goes through without an [OSError] or a
    [SerialException]. *)
Record Host := mkHost {
  platform : string;
  glob : string → list string;
  can_open : string → bool;
}.

(** ['COM%s' % k] *)
Definition com_port (k : nat) : string := "COM" +:+ pretty k.

(** The ports to probe, or the message of the [EnvironmentError]. *)
Definition candidate_ports (h : Host) : string + list string :=
  if String.prefix "win" (platform h) then
    inr (map (λ i, com_port (i + 1)) (seq 0 256))
  else if String.prefix "linux" (platform h) || String.prefix "cygwin" (platform h) then
    inr (glob h "/dev/tty[A-Za-z]*")
  else if String.prefix "darwin" (platform h) then
    inr (glob h "/dev/tty.usbmodem*")
  else inl "Unsupported platform".

(** [for port in _ports: try: ... result.append(port) except ...: pass] *)
Fixpoint probe (h : Host) (_ports result : list string) : list string :=
  match _ports with
  | [] => result
  | port :: _ports =>
      probe h _ports (if can_open h port then result ++ [port] else result)
  end.

Definition serial_ports (h : Host) : string + list string :=
  match candidate_ports h with
  | inl e => inl e
  | inr _ports => inr (probe h _ports [])
  end.

(** ** Concrete devices *)

(** A device that answers the [i]-th byte written with the [i]-th entry
    of [on_write] and the [i]-th sleep with the [i]-th entry of
    [on_sleep], and is silent once a script is used up. *)
Definition scripted : Device :=
  mkDevice (list (list byte) * list (list byte))
    (λ ev st,
       match ev, st with
       | Wrote _, (r :: ws, ss) => ((ws, ss), r)
       | Slept _, (ws, r :: ss) => ((ws, ss), r)
       | _, _ => (st, [])
       end).

(** The world at process start: nothing sent or received, [chip_map] as
    the module defines it. *)
Definition boot (D : Device) (d : dstate D) (fs : gmap string (list byte)) : World D :=
  mkWorld d [] [] [] [] chip_map fs.

Definition script (on_write on_sleep : list (list byte)) : World scripted :=
  boot scripted (on_write, on_sleep) ∅.

(** The world a computation stops in, when it stops. *)
Definition final {D A} (r : Res D A) : option (World D) :=
  match r with
  | Ok _ w | Raise _ w => Some w
  | Diverge => None
  end.

(** A descriptor without the three fields [get_chip_id] writes. *)
Definition static_fields (d : gmap string Field) : gmap string Field :=
  delete "hw_sub_code" (delete "hw_version" (delete "sw_version" d)).

Definition table_static (m : gmap Z (gmap string Field)) : gmap Z (gmap string Field) :=
  static_fields <$> m.

(** What the three assignments of [get_chip_id] do to the entry [key]
    of the table. *)
Definition augment (key hw_sub_resp : Z) (m : gmap Z (gmap string Field))
    : gmap Z (gmap string Field) :=
  alter (insert "sw_version" (FInt (Z.land hw_sub_resp 0xFFFFFFFF))) key
    (alter (insert "hw_version" (FInt (Z.land (Z.shiftr hw_sub_resp 32) 0xFFFF))) key
       (alter (insert "hw_sub_code" (FInt (Z.shiftr (Z.shiftr hw_sub_resp 32) 16))) key m)).

(** ** Notions and sample sessions used in the statements *)

(** The keys [get_chip_id] assigns. *)
Definition derived_key (key : string) : Prop :=
  key = "hw_sub_code" ∨ key = "hw_version" ∨ key = "sw_version".

(** The entry [key] after the three assignments. *)
Definition augmented (sub : Z) (d : gmap string Field) : gmap string Field :=
  <["sw_version" := FInt (Z.land sub 0xFFFFFFFF)]>
    (<["hw_version" := FInt (Z.land (Z.shiftr sub 32) 0xFFFF)]>
       (<["hw_sub_code" := FInt (Z.shiftr (Z.shiftr sub 32) 16)]> d)).

(** [m] leaves the part [f] of the world as it found it, however it
    ends. *)
Definition keeps {D A X} (f : World D → X) (m : M D A) : Prop :=
  ∀ fuel w, match final (m fuel w) with
            | Some w' => f w' = f w
            | None => True
            end.

(** The lines [get_chip_id] prints for a descriptor. *)
Definition banner (name : Field) (id hc a b c : Z) : list string :=
  [ "==============================";
    "======= Chip detected! =======";
    "==============================";
    "======= " +:+ py_str name +:+ " (" +:+ Hex.py_hex id +:+ ") =======";
    "  Hardware Code:" +:+ " " +:+ Hex.py_hex hc;
    "  Hardware Sub-code:" +:+ " " +:+ Hex.py_hex a;
    "  Hardware Version:" +:+ " " +:+ Hex.py_hex b;
    "  Software Version:" +:+ " " +:+ Hex.py_hex c;
    "==============================" ].

Definition querying : string := nl +:+ "Querying Chip ID...".

(** Answers of an MT6765: the word 0x07660000, and a sub-word whose
    fields are 1, 2 and 3. *)
Definition id_bytes : list byte := [x07; x66; x00; x00].

Definition sub_bytes : list byte := [x00; x01; x00; x02; x00; x00; x00; x03].

Definition static_table {D} (w : World D) : gmap Z (gmap string Field) :=
  table_static (cur_chip_map w).

(** The world after one [get_chip_id] on such a device, which is ready
    to answer the two queries once more. *)
Definition identified_once : World scripted :=
  mkWorld (D:=scripted) ([[xfd]; [xfc]], [id_bytes; sub_bytes]) [] [xfd; xfc] [100%N; 100%N]
    ([querying] ++ banner (FStr "MT6765") 0x766 0x6765 1 2 3)
    (augment 0x766 (int_from_bytes_big sub_bytes) chip_map) ∅.

Definition attempting (port : string) : string :=
  nl +:+ "Attempting handshake on [" +:+ port +:+ "]...".

(** The magic the host sends, the reply of the device, and the ASCII
    bytes of "READY". *)
Definition magic_bytes : list byte := [xa0; x0a; x50; x05].

Definition reply_bytes : list byte := [x5f; xf5; xaf; xfa].

Definition already_done : string :=
  "Handshake complete. Warning: device returned input data. (Is Handshake already done?)".

Definition greet_bytes : list byte := [x52; x45; x41; x44; x59].

(** The world a scripted device is left in when the handshake loop ends
    having sent [sent_bytes]. *)
Definition after_handshake (sent_bytes : list byte) (port : string) : World scripted :=
  mkWorld (D:=scripted) ([], []) [] sent_bytes [] [attempting port] chip_map ∅.

(** What C6 asks of a run from [w]: once Preloader mode is recorded the
    host goes on with the magic bytes it has not sent yet, so a run that
    ends in Preloader mode has sent each byte of the magic once. *)
Definition resumes_magic {D} (port : string) (fuel : nat) (w : World D) : Prop :=
  ∀ v w', try_handshake port fuel w = Ok v w' →
          In "Device connected via Preloader" (stdout w') →
          tx w' = (tx w ++ magic_bytes)%list.

Definition da_path : string := "MTK_AllInOne_DA.bin".

(** The little-endian word at offset [off] of the image. *)
Definition word_at (content : list byte) (off : nat) : Z :=
  default 0%Z (unpack_le32 (take 4 (drop off content))).

(** The hardware code of each of the first [n] records: record [i]
    starts [4 + 220 * i] bytes after offset 0x68. *)
Definition da_codes (content : list byte) (n : nat) : list Z :=
  map (λ i, Z.shiftr (word_at content (0x68 + 4 + 220 * i)) 16) (seq 0 n).

Definition da_header : list string :=
  [ nl +:+ "==============================";
    "========= DA Loader ==========";
    "==============================";
    "  Loading " +:+ da_path +:+ "...";
    "  Supported Chips: " ].

Definition da_footer (n : nat) : list string :=
  [ "  Loaded DA!" +:+ nl +:+ "  Found " +:+ pretty (Z.of_nat n) +:+ " supported chips.";
    "==============================" ].

Definition da_line (code : Z) : string := "    - MT" +:+ Hex.digits (Z.to_N code).

(** A 220-byte header record whose leading word is [b3 b2 DA DA] when
    read little-endian, and an image with three of them. *)
Definition da_record (b2 b3 : byte) : list byte :=
  ([xda; xda; b2; b3] ++ repeat x00 216)%list.

Definition da_image : list byte :=
  (repeat x00 0x68 ++ [x03; x00; x00; x00]
   ++ da_record x65 x67 ++ da_record x61 x67 ++ da_record x68 x67)%list.

Definition da_world : World scripted :=
  boot scripted ([], []) {[ da_path := da_image ]}.

Definition qualify_banner : string := nl +:+ "Qualify Host".

Definition auth_banner : string := nl +:+ "Loading and sending auth file".

(** The world after the bytes [bs] have been written, one by one. *)
Definition sent_all {D} (bs : list byte) (w : World D) : World D :=
  fold_left (λ w b, sent b w) bs w.

(** The body of the transfer loop for chunk [i], with chunk size [c]. *)
Definition send_chunk {D} (c : nat) (ba : list byte) (i : nat) : M D unit :=
  bind (py_slice (PyBytes ba) (i * c) ((i + 1) * c))
       (λ chunk, write_serial_raw chunk false).

(** The image above, padded with zero bytes to [len] bytes. *)
Definition da_image_padded (len : N) : list byte :=
  (da_image ++ repeat x00 (N.to_nat len - length da_image))%list.

(** A device that echoes the four command frames of [send_da] and adds
    the two status bytes after the last one. *)
Definition da_echoes : list (list byte) :=
  [ [xd7]; [x00]; [x20]; [x00]; [x00]; [x00]; [x03]; [x61]; [xa8];
    [x00]; [x00]; [x01]; [x00; x00; x00] ].

Definition da_frames : list byte :=
  [xd7; x00; x20; x00; x00; x00; x03; x61; xa8; x00; x00; x01; x00].

Definition da_session (len : N) : World scripted :=
  boot scripted (da_echoes, []) {[ da_path := da_image_padded len ]}.

(** [m] raises nothing but exceptions in [P]. *)
Definition raises_only {D A} (P : Exn → Prop) (m : M D A) : Prop :=
  ∀ fuel w e w', m fuel w = Raise e w' → P e.

(** What a device delivers over a sequence of events. *)
Fixpoint emitted {D} (evs : list Event) (d : dstate D) : list byte :=
  match evs with
  | [] => []
  | ev :: evs => let '(d', bs) := react D ev d in (bs ++ emitted evs d')%list
  end.

Definition passive (ev : Event) : Prop :=
  match ev with
  | Wrote _ => False
  | Slept _ | Idle => True
  end.

(** A device state from which nothing arrives as long as the host only
    waits: the device "never makes data available". *)
Definition quiet {D} (d : dstate D) : Prop :=
  ∀ evs, Forall passive evs → emitted evs d = [].

(** ** Further notions and sample worlds *)

(** The value of a byte. *)
Definition u8 (b : byte) : Z := Z.of_N (Byte.to_N b).

(** The part of the world that is not the port. *)
Definition backstage {D} (w : World D)
    : list string * gmap Z (gmap string Field) * gmap string (list byte) :=
  (stdout w, cur_chip_map w, files w).

(** The banner of [check_preloader]. *)
Definition checking : string := nl +:+ "Checking preloader version...".

Definition auth_path : string := "auth_sv5.auth".

(** The command and the length word of [send_auth_file]. *)
Definition auth_frames : list byte := [xe2; x00; x00; x08; xd0].

(** A session in which a two-byte auth file is sent and accepted, and
    the world it ends in. *)
Definition auth_world : World scripted :=
  mkWorld (D:=scripted)
    ([[xe2]; [x00]; [x00]; [x08]; [xd0; x00; x00]; [x00; x00]; [x00; x00]], [])
    [] [] [] [] chip_map {[ auth_path := [xaa; xbb] ]}.

Definition auth_done : World scripted :=
  mkWorld (D:=scripted) ([], []) [] (auth_frames ++ [xaa; xbb]) []
    [auth_banner; "Auth file send success!"] chip_map {[ auth_path := [xaa; xbb] ]}.

(** The three lines [send_auth_file] prints before it exits. *)
Definition auth_aborts : list string :=
  [ "Send Auth File failed! Aborting.";
    "Bad command! Aborting.";
    "Failed to send auth file! Aborting." ].

(** A device that accepts the command while the auth file is missing,
    and the world that session stops in. *)
Definition auth_missing : World scripted :=
  script [[xe2]; [x00]; [x00]; [x08]; [xd0; x00; x00]] [].

Definition auth_missing_end : World scripted :=
  mkWorld (D:=scripted) ([], []) [] auth_frames [] [auth_banner] chip_map ∅.

(** The command and the length word of [qualify_host]. *)
Definition qualify_frames : list byte := [xe3; x00; x00; x01; x00].

(** An image whose second record stops after its leading word. *)
Definition da_image_cut : list byte :=
  (repeat x00 0x68 ++ [x02; x00; x00; x00]
   ++ da_record x65 x67 ++ [xda; xda; x61; x67])%list.

Definition da_world_cut : World scripted :=
  boot scripted ([], []) {[ da_path := da_image_cut ]}.

(** An image that announces three records and holds one. *)
Definition da_image_lying : list byte :=
  (repeat x00 0x68 ++ [x03; x00; x00; x00] ++ da_record x65 x67)%list.

Definition da_world_lying : World scripted :=
  boot scripted ([], []) {[ da_path := da_image_lying ]}.

(** A DA file of two bytes. *)
Definition da_world_short : World scripted :=
  boot scripted ([], []) {[ da_path := [xda; xda] ]}.

Definition da_banner : string := nl +:+ "Send DA".

(** A Windows machine on which only COM3 and COM7 open. *)
Definition win_host : Host :=
  mkHost "win32" (λ _, [])
    (λ port, String.eqb port "COM3" || String.eqb port "COM7").

(** A Linux machine with two terminal devices, one of which opens. *)
Definition linux_host : Host :=
  mkHost "linux"
    (λ pattern, if String.eqb pattern "/dev/tty[A-Za-z]*"
                then ["/dev/ttyS0"; "/dev/ttyUSB0"] else [])
    (λ port, String.eqb port "/dev/ttyUSB0").

(** What C3 asks for an unknown chip in a run from [w]: once the first
    query has returned a word whose code is no key of the table,
    [get_chip_id] fails with the table's look-up error for that code. *)
Definition unknown_chip_fails {D} (fuel : nat) (w : World D) : Prop :=
  ∀ bs1 w1,
    read_resp "fd" 100 fuel (printed querying w) = Ok (Some (map Hex.of_byte bs1)) w1 →
    chip_map !! Z.shiftr (int_from_bytes_big bs1) 16 = None →
    ∃ w', get_chip_id fuel w
          = Raise (KeyErrorInt (Z.shiftr (int_from_bytes_big bs1) 16)) w'.

(** The word 0x67650000: its code 0x6765 is no key of [chip_map]. *)
Definition unknown_bytes : list byte := [x67; x65; x00; x00].

(** What C10 asks of a run from [w]: when one of the two chip queries is
    echoed and comes back empty after the polling window,
    [get_chip_id] fails with the look-up error for code 0. *)
Definition silent_query_fails {D} (fuel : nat) (w : World D) : Prop :=
  (∃ w1, read_resp "fd" 100 fuel (printed querying w) = Ok (Some []) w1) ∨
  (∃ r1 w1 w2, read_resp "fd" 100 fuel (printed querying w) = Ok (Some r1) w1 ∧
               read_resp "fc" 100 fuel w1 = Ok (Some []) w2) →
  ∃ w', get_chip_id fuel w = Raise (KeyErrorInt 0) w'.

(** * Properties *)

(** ** Hexadecimal text *)

Lemma fromhex_of_byte (b : byte) : Hex.fromhex (Hex.of_byte b) = Some [b].
Proof. destruct b; reflexivity. Qed.

Lemma sapp_cons (c : ascii) (s t : string) : String c s +:+ t = String c (s +:+ t).
Proof. reflexivity. Qed.

Lemma sapp_nil_r (s : string) : s +:+ "" = s.
Proof. induction s as [|c s IH]; [reflexivity|]. now rewrite sapp_cons, IH. Qed.

Lemma sapp_assoc (s t u : string) : (s +:+ t) +:+ u = s +:+ t +:+ u.
Proof. induction s as [|c s IH]; [reflexivity|]. now rewrite !sapp_cons, IH. Qed.

Lemma concat_empty_cons (x : string) (l : list string) :
  String.concat "" (x :: l) = x +:+ String.concat "" l.
Proof.
  destruct l as [|y l]; simpl.
  - now rewrite sapp_nil_r.
  - reflexivity.
Qed.

Lemma concat_empty_app (l1 l2 : list string) :
  String.concat "" (l1 ++ l2) = String.concat "" l1 +:+ String.concat "" l2.
Proof.
  induction l1 as [|x l1 IH].
  - reflexivity.
  - change ((x :: l1) ++ l2)%list with (x :: (l1 ++ l2))%list.
    rewrite !concat_empty_cons, IH. symmetry. apply sapp_assoc.
Qed.

Lemma of_bytes_cons (b : byte) (bs : list byte) :
  Hex.of_bytes (b :: bs) = Hex.of_byte b +:+ Hex.of_bytes bs.
Proof. apply concat_empty_cons. Qed.

Lemma of_bytes_app (bs1 bs2 : list byte) :
  Hex.of_bytes (bs1 ++ bs2) = Hex.of_bytes bs1 +:+ Hex.of_bytes bs2.
Proof. unfold Hex.of_bytes. rewrite map_app. apply concat_empty_app. Qed.

Lemma fromhex_byte_app (b : byte) (rest : string) :
  Hex.fromhex (Hex.of_byte b +:+ rest) = cons b <$> Hex.fromhex rest.
Proof.
  unfold Hex.of_byte. rewrite !sapp_cons. change ("" +:+ rest) with rest.
  destruct (Hex.fromhex rest) as [bs|] eqn:E; destruct b; cbn; now rewrite E.
Qed.

(** Text produced by [.hex()] parses back to the bytes it came from. *)
Lemma fromhex_of_bytes (bs : list byte) : Hex.fromhex (Hex.of_bytes bs) = Some bs.
Proof.
  induction bs as [|b bs IH]; [reflexivity|].
  now rewrite of_bytes_cons, fromhex_byte_app, IH.
Qed.

Lemma of_bytes_inj (bs1 bs2 : list byte) :
  Hex.of_bytes bs1 = Hex.of_bytes bs2 → bs1 = bs2.
Proof.
  intros H. apply (f_equal Hex.fromhex) in H.
  rewrite !fromhex_of_bytes in H. congruence.
Qed.

(** ** The chip table *)

Lemma static_fields_insert key v (d : gmap string Field) :
  derived_key key → static_fields (<[key:=v]> d) = static_fields d.
Proof.
  intros Hk. apply map_eq. intros i. unfold static_fields.
  rewrite !lookup_delete, lookup_insert.
  destruct Hk as [-> | [-> | ->]]; repeat case_decide; congruence.
Qed.

Lemma table_static_alter key v ref (m : gmap Z (gmap string Field)) :
  derived_key key → table_static (alter (insert key v) ref m) = table_static m.
Proof.
  intros Hk. unfold table_static.
  rewrite (fmap_alter _ _ id).
  - apply alter_id. reflexivity.
  - intros d _. now apply static_fields_insert.
Qed.

Lemma table_static_augment key sub (m : gmap Z (gmap string Field)) :
  table_static (augment key sub m) = table_static m.
Proof.
  unfold augment.
  rewrite !table_static_alter; [reflexivity | unfold derived_key; auto..].
Qed.

Lemma augment_alter key sub (m : gmap Z (gmap string Field)) :
  augment key sub m = alter (augmented sub) key m.
Proof. unfold augment. rewrite !alter_alter_eq. now apply alter_ext. Qed.

Lemma augment_lookup key sub (m : gmap Z (gmap string Field)) :
  augment key sub m !! key = augmented sub <$> m !! key.
Proof. rewrite augment_alter. apply lookup_alter_eq. Qed.

Lemma augmented_idem sub (d : gmap string Field) :
  augmented sub (augmented sub d) = augmented sub d.
Proof.
  apply map_eq. intros i. unfold augmented.
  rewrite !lookup_insert. repeat case_decide; congruence.
Qed.

Lemma augment_idem key sub (m : gmap Z (gmap string Field)) :
  augment key sub (augment key sub m) = augment key sub m.
Proof.
  rewrite !augment_alter, alter_alter_eq.
  apply alter_ext. intros d _. apply augmented_idem.
Qed.

(** Keys of the table are never added or removed by [augment]. *)
Lemma augment_lookup_None key sub k (m : gmap Z (gmap string Field)) :
  augment key sub m !! k = None ↔ m !! k = None.
Proof. rewrite augment_alter. apply lookup_alter_None. Qed.

Lemma augmented_static key sub (d : gmap string Field) :
  ¬ derived_key key → augmented sub d !! key = d !! key.
Proof.
  intros Hk. unfold augmented, derived_key in *.
  rewrite !lookup_insert_ne; [reflexivity | intros <-; tauto ..].
Qed.

(** A table whose static part is the module's literal has the MT6765
    entry, with its static fields, under key 0x766. *)
Lemma static_entry (m : gmap Z (gmap string Field)) :
  table_static m = chip_map →
  ∃ d, m !! 0x766%Z = Some d ∧
       d !! "id" = Some (FInt 0x766) ∧ d !! "name" = Some (FStr "MT6765") ∧
       d !! "hw_code" = Some (FInt 0x6765).
Proof.
  intros H.
  assert (table_static m !! 0x766%Z = chip_map !! 0x766%Z) as E by now rewrite H.
  unfold table_static, chip_map in E. rewrite lookup_fmap, lookup_singleton_eq in E.
  destruct (m !! 0x766%Z) as [d|]; [|discriminate]. injection E as E.
  exists d. split; [reflexivity|].
  assert (∀ key, ¬ derived_key key → d !! key = static_fields d !! key) as S.
  { intros key Hk. unfold static_fields, derived_key in *.
    rewrite !lookup_delete_ne; [reflexivity | intros <-; tauto ..]. }
  rewrite !S; [|unfold derived_key; intros [|[|]]; discriminate ..].
  rewrite E. repeat split; reflexivity.
Qed.

Lemma static_absent (m : gmap Z (gmap string Field)) k :
  table_static m = chip_map → chip_map !! k = None → m !! k = None.
Proof.
  intros H E. rewrite <- H in E. unfold table_static in E.
  rewrite lookup_fmap in E. now destruct (m !! k).
Qed.

Lemma chip_map_static : table_static chip_map = chip_map.
Proof.
  unfold table_static, chip_map. rewrite map_fmap_singleton. reflexivity.
Qed.

(** ** Running monadic code *)

Section Facts.

Context {D : Device}.
Implicit Types (w : World D) (fuel : nat).

Lemma bind_run {A B} (m : M D A) (k : A → M D B) fuel w a w1 :
  m fuel w = Ok a w1 → bind m k fuel w = k a fuel w1.
Proof. unfold bind. now intros ->. Qed.

Lemma bind_raise {A B} (m : M D A) (k : A → M D B) fuel w e w1 :
  m fuel w = Raise e w1 → bind m k fuel w = Raise e w1.
Proof. unfold bind. now intros ->. Qed.

Lemma bind_Ok_inv {A B} (m : M D A) (k : A → M D B) fuel w b w' :
  bind m k fuel w = Ok b w' →
  ∃ a w1, m fuel w = Ok a w1 ∧ k a fuel w1 = Ok b w'.
Proof.
  unfold bind. destruct (m fuel w) as [a w1| |]; [|discriminate..].
  intros H. now exists a, w1.
Qed.

(** *** Effects that leave a part [f] of the world alone *)

Lemma keeps_ret {A X} (f : World D → X) (a : A) : keeps (D:=D) f (ret a).
Proof. now intros fuel w. Qed.

Lemma keeps_raise {A X} (f : World D → X) e : keeps (D:=D) f (raise (A:=A) e).
Proof. now intros fuel w. Qed.

Lemma keeps_diverge {A X} (f : World D → X) : keeps (D:=D) f (diverge (A:=A)).
Proof. now intros fuel w. Qed.

Lemma keeps_bind {A B X} (f : World D → X) (m : M D A) (k : A → M D B) :
  keeps (D:=D) f m → (∀ a, keeps (D:=D) f (k a)) → keeps (D:=D) f (bind m k).
Proof.
  intros Hm Hk fuel w. specialize (Hm fuel w). unfold bind.
  destruct (m fuel w) as [a w1|e w1|]; simpl in *; [|assumption..].
  specialize (Hk a fuel w1). destruct (final (k a fuel w1)); [congruence|trivial].
Qed.

Lemma keeps_with_budget {A X} (f : World D → X) (g : nat → M D A) :
  (∀ n, keeps (D:=D) f (g n)) → keeps (D:=D) f (with_budget g).
Proof. intros H fuel w. apply H. Qed.

Lemma keeps_of_option {A X} (f : World D → X) e (o : option A) :
  keeps (D:=D) f (of_option e o).
Proof. destruct o; [apply keeps_ret | apply keeps_raise]. Qed.

Lemma keeps_if {A X} (f : World D → X) (b : bool) (m1 m2 : M D A) :
  keeps (D:=D) f m1 → keeps (D:=D) f m2 → keeps (D:=D) f (if b then m1 else m2).
Proof. now destruct b. Qed.

Lemma keeps_compose {A X Y} (f : World D → X) (g : X → Y) (m : M D A) :
  keeps (D:=D) f m → keeps (λ w, g (f w)) m.
Proof.
  intros H fuel w. specialize (H fuel w).
  destruct (final (m fuel w)); [now f_equal | trivial].
Qed.

Create HintDb keeps discriminated.
Hint Resolve keeps_ret keeps_raise keeps_diverge keeps_bind
  keeps_with_budget keeps_of_option keeps_if : keeps.

Lemma deliver_chip_map ev w : cur_chip_map (deliver ev w) = cur_chip_map w.
Proof. unfold deliver. now destruct (react D ev (dev w)). Qed.

Lemma keeps_s_write bs : keeps (D:=D) cur_chip_map (s_write bs).
Proof.
  intros fuel w. unfold s_write, final. revert w.
  induction bs as [|b bs IH]; intros w; [reflexivity|].
  cbn [fold_left]. rewrite IH. apply deliver_chip_map.
Qed.

Lemma keeps_s_in_waiting : keeps (D:=D) cur_chip_map s_in_waiting.
Proof. intros fuel w. apply deliver_chip_map. Qed.

Lemma keeps_block_read n : keeps (D:=D) cur_chip_map (block_read n).
Proof.
  intros fuel. induction n as [|n IH]; intros w; simpl.
  - now destruct (rx w).
  - destruct (rx w); simpl; [|reflexivity].
    specialize (IH (deliver Idle w)).
    destruct (final (block_read n fuel (deliver Idle w))) as [w'|]; [|trivial].
    rewrite IH. apply deliver_chip_map.
Qed.

Lemma keeps_s_read1 : keeps (D:=D) cur_chip_map s_read1.
Proof. apply keeps_with_budget, keeps_block_read. Qed.

Lemma keeps_sleep ms : keeps (D:=D) cur_chip_map (sleep ms).
Proof. intros fuel w. apply deliver_chip_map. Qed.

Lemma keeps_print line : keeps (D:=D) cur_chip_map (print line).
Proof. now intros fuel w. Qed.

Hint Resolve keeps_s_write keeps_s_in_waiting keeps_s_read1 keeps_sleep
  keeps_print : keeps.

Lemma keeps_write_serial_raw data nowrite :
  keeps (D:=D) cur_chip_map (write_serial_raw data nowrite).
Proof.
  unfold write_serial_raw. apply keeps_bind; [|intros; simpl; auto with keeps].
  generalize (@nil string).
  induction data as [|b data IH]; intros sdata; simpl; auto 10 with keeps.
Qed.
Hint Resolve keeps_write_serial_raw : keeps.

Lemma keeps_write_serial data : keeps (D:=D) cur_chip_map (write_serial data).
Proof. unfold write_serial. auto with keeps. Qed.

Lemma keeps_read_serial n : keeps (D:=D) cur_chip_map (read_serial n).
Proof.
  unfold read_serial. apply keeps_bind; [|intros; simpl; auto with keeps].
  generalize (@nil string).
  induction n as [|n IH]; intros acc; simpl; auto with keeps.
Qed.
Hint Resolve keeps_write_serial keeps_read_serial : keeps.

Lemma keeps_poll n ctr : keeps (D:=D) cur_chip_map (poll n ctr).
Proof. revert ctr. induction n as [|n IH]; intros ctr; simpl; auto 10 with keeps. Qed.
Hint Resolve keeps_poll : keeps.

Lemma keeps_read_resp cmd t : keeps (D:=D) cur_chip_map (read_resp cmd t).
Proof. unfold read_resp. simpl. auto 20 with keeps. Qed.

Lemma keeps_bstr_to_int r : keeps (D:=D) cur_chip_map (bstr_to_int r).
Proof. destruct r; simpl; auto with keeps. Qed.
Hint Resolve keeps_read_resp keeps_bstr_to_int : keeps.

Lemma keeps_chip_queries : keeps (D:=D) cur_chip_map chip_queries.
Proof. unfold chip_queries. auto 20 with keeps. Qed.

(** *** What [read_serial] and [read_resp] return *)

Lemma read_serial_go_hex n : ∀ acc fuel w r w',
  read_serial_go n acc fuel w = Ok r w' →
  ∃ bs, r = (acc ++ map Hex.of_byte bs)%list ∧ length bs = n.
Proof.
  induction n as [|n IH]; intros acc fuel w r w' H; simpl in H.
  - injection H as <- <-. exists []. now rewrite List.app_nil_r.
  - apply bind_Ok_inv in H as (b & w1 & _ & H).
    apply IH in H as (bs & -> & <-). exists (b :: bs).
    now rewrite <- List.app_assoc.
Qed.

Lemma read_serial_hex n fuel w r w' :
  read_serial n fuel w = Ok r w' →
  ∃ bs, r = map Hex.of_byte bs ∧ length bs = n.
Proof.
  unfold read_serial. intros H.
  apply bind_Ok_inv in H as (r0 & w1 & H0 & H). simpl in H.
  injection H as <- <-. now apply read_serial_go_hex in H0.
Qed.

Lemma read_resp_hex cmd t fuel w r w' :
  read_resp cmd t fuel w = Ok (Some r) w' → ∃ bs, r = map Hex.of_byte bs.
Proof.
  unfold read_resp. intros H.
  apply bind_Ok_inv in H as (? & w1 & _ & H).
  apply bind_Ok_inv in H as (e & w2 & _ & H).
  destruct (String.eqb _ cmd); [|discriminate].
  apply bind_Ok_inv in H as (? & w3 & _ & H).
  apply bind_Ok_inv in H as (? & w4 & _ & H).
  apply bind_Ok_inv in H as (? & w5 & _ & H).
  apply bind_Ok_inv in H as (k & w6 & _ & H).
  apply bind_Ok_inv in H as (r' & w7 & Hr & H).
  injection H as <- <-. apply read_serial_hex in Hr as (bs & -> & _).
  now exists bs.
Qed.

Lemma bstr_to_int_hex bs fuel w :
  bstr_to_int (Some (map Hex.of_byte bs)) fuel w = Ok (int_from_bytes_big bs) w.
Proof.
  unfold bstr_to_int. fold (Hex.of_bytes bs).
  erewrite bind_run; [reflexivity|]. now rewrite fromhex_of_bytes.
Qed.

Lemma chip_queries_run fuel w bs1 w1 bs2 w2 :
  read_resp "fd" 100 fuel w = Ok (Some (map Hex.of_byte bs1)) w1 →
  read_resp "fc" 100 fuel w1 = Ok (Some (map Hex.of_byte bs2)) w2 →
  chip_queries fuel w = Ok (int_from_bytes_big bs1, int_from_bytes_big bs2) w2.
Proof.
  intros H1 H2. unfold chip_queries.
  erewrite bind_run by exact H1.
  erewrite bind_run by apply bstr_to_int_hex.
  erewrite bind_run by exact H2.
  erewrite bind_run by apply bstr_to_int_hex.
  reflexivity.
Qed.

(** *** The table look-up and the banner of [get_chip_id] *)

Lemma keeps_get_world {X} (f : World D → X) : keeps (D:=D) f get_world.
Proof. now intros fuel w. Qed.

Lemma keeps_dict_get ref key : keeps (D:=D) cur_chip_map (dict_get ref key).
Proof.
  unfold dict_get. apply keeps_bind; [apply keeps_get_world|].
  intros w. destruct (cur_chip_map w !! ref); auto with keeps.
Qed.

Lemma keeps_hex_of_field v : keeps (D:=D) cur_chip_map (hex_of_field v).
Proof. destruct v; simpl; auto with keeps. Qed.
Hint Resolve keeps_dict_get keeps_hex_of_field : keeps.

Lemma keeps_chip_report k : keeps (D:=D) cur_chip_map (chip_report k).
Proof. unfold chip_report, print_hex_field. auto 40 with keeps. Qed.

Lemma chip_fill_missing hw sub fuel w :
  cur_chip_map w !! Z.shiftr hw 16 = None →
  chip_fill hw sub fuel w = Raise (KeyErrorInt (Z.shiftr hw 16)) w.
Proof. intros H. unfold chip_fill, bind, get_world. simpl. now rewrite H. Qed.

Lemma chip_fill_found hw sub fuel w d :
  cur_chip_map w !! Z.shiftr hw 16 = Some d →
  chip_fill hw sub fuel w =
  chip_report (Z.shiftr hw 16) fuel
    (with_table (augment (Z.shiftr hw 16) sub (cur_chip_map w)) w).
Proof. intros H. unfold chip_fill, bind, get_world. simpl. now rewrite H. Qed.

Lemma print_run line fuel w : print line fuel w = Ok tt (printed line w).
Proof. reflexivity. Qed.

Lemma printed_all_app l1 l2 w :
  printed_all l2 (printed_all l1 w) = printed_all (l1 ++ l2) w.
Proof. unfold printed_all. simpl. now rewrite <- List.app_assoc. Qed.

Lemma printed_all_nil w : printed_all [] w = w.
Proof. destruct w. unfold printed_all. simpl. now rewrite List.app_nil_r. Qed.

Lemma printed_table line w : cur_chip_map (printed line w) = cur_chip_map w.
Proof. reflexivity. Qed.

Lemma dict_get_run ref key fuel w d v :
  cur_chip_map w !! ref = Some d → d !! key = Some v →
  dict_get ref key fuel w = Ok v w.
Proof. intros Hd Hv. unfold dict_get, bind, get_world. now rewrite Hd, Hv. Qed.

Lemma print_hex_field_run label ref key fuel w d z :
  cur_chip_map w !! ref = Some d → d !! key = Some (FInt z) →
  print_hex_field label ref key fuel w
  = Ok tt (printed (label +:+ " " +:+ Hex.py_hex z) w).
Proof.
  intros Hd Hv. unfold print_hex_field.
  erewrite bind_run by (eapply dict_get_run; eassumption).
  erewrite bind_run by reflexivity. reflexivity.
Qed.

Lemma chip_report_run k fuel w d name id hc a b c :
  cur_chip_map w !! k = Some d →
  d !! "name" = Some name → d !! "id" = Some (FInt id) →
  d !! "hw_code" = Some (FInt hc) → d !! "hw_sub_code" = Some (FInt a) →
  d !! "hw_version" = Some (FInt b) → d !! "sw_version" = Some (FInt c) →
  chip_report k fuel w = Ok k (printed_all (banner name id hc a b c) w).
Proof.
  intros Hd Hn Hi Hc Ha Hb Hv. unfold chip_report.
  do 3 (erewrite bind_run by apply print_run).
  erewrite bind_run by (eapply dict_get_run; [exact Hd | exact Hn]).
  erewrite bind_run by (eapply dict_get_run; [exact Hd | exact Hi]).
  erewrite bind_run by reflexivity.
  erewrite bind_run by apply print_run.
  erewrite bind_run by (eapply print_hex_field_run; [exact Hd | exact Hc]).
  erewrite bind_run by (eapply print_hex_field_run; [exact Hd | exact Ha]).
  erewrite bind_run by (eapply print_hex_field_run; [exact Hd | exact Hb]).
  erewrite bind_run by (eapply print_hex_field_run; [exact Hd | exact Hv]).
  erewrite bind_run by apply print_run.
  unfold ret. f_equal. unfold printed. now rewrite !printed_all_app.
Qed.

Lemma keeps_Ok {A X} (f : World D → X) (m : M D A) fuel w a w' :
  keeps (D:=D) f m → m fuel w = Ok a w' → f w' = f w.
Proof. intros H E. specialize (H fuel w). now rewrite E in H. Qed.

Lemma dict_get_Ok_inv ref key fuel w v w' :
  dict_get ref key fuel w = Ok v w' →
  ∃ d, cur_chip_map w !! ref = Some d ∧ d !! key = Some v.
Proof.
  unfold dict_get, bind, get_world.
  destruct (cur_chip_map w !! ref) as [d|]; [|discriminate].
  destruct (d !! key) as [v'|] eqn:E; [|discriminate].
  intros [= <- _]. now exists d.
Qed.

Lemma print_hex_field_Ok_inv label ref key fuel w u w' :
  print_hex_field label ref key fuel w = Ok u w' →
  cur_chip_map w' = cur_chip_map w ∧
  ∃ d z, cur_chip_map w !! ref = Some d ∧ d !! key = Some (FInt z).
Proof.
  intros H. split.
  { revert H. apply keeps_Ok. unfold print_hex_field. auto with keeps. }
  unfold print_hex_field in H.
  apply bind_Ok_inv in H as (v & w1 & Hv & H).
  apply dict_get_Ok_inv in Hv as (d & Hd & Hv).
  apply bind_Ok_inv in H as (h & w2 & Hh & _).
  destruct v as [z|]; [|discriminate]. now exists d, z.
Qed.

Lemma chip_report_Ok_inv k fuel w k' w' :
  chip_report k fuel w = Ok k' w' →
  ∃ d name id hc a b c,
    cur_chip_map w !! k = Some d ∧
    d !! "name" = Some name ∧ d !! "id" = Some (FInt id) ∧
    d !! "hw_code" = Some (FInt hc) ∧ d !! "hw_sub_code" = Some (FInt a) ∧
    d !! "hw_version" = Some (FInt b) ∧ d !! "sw_version" = Some (FInt c).
Proof.
  unfold chip_report. intros H.
  apply bind_Ok_inv in H as (? & w1 & [= _ <-] & H).
  apply bind_Ok_inv in H as (? & w2 & [= _ <-] & H).
  apply bind_Ok_inv in H as (? & w3 & [= _ <-] & H).
  apply bind_Ok_inv in H as (name & w4 & Hn & H).
  pose proof (keeps_Ok _ _ _ _ _ _ (keeps_dict_get _ _) Hn) as E4.
  apply dict_get_Ok_inv in Hn as (d & Hd & Hn).
  change (cur_chip_map w !! k = Some d) in Hd. change (cur_chip_map w4 = cur_chip_map w) in E4.
  apply bind_Ok_inv in H as (vid & w5 & Hi & H).
  pose proof (keeps_Ok _ _ _ _ _ _ (keeps_dict_get _ _) Hi) as E5.
  apply dict_get_Ok_inv in Hi as (d' & Hd' & Hi).
  apply bind_Ok_inv in H as (hid & w6 & Hh & H).
  pose proof (keeps_Ok _ _ _ _ _ _ (keeps_hex_of_field _) Hh) as E6.
  destruct vid as [id|]; [|discriminate].
  apply bind_Ok_inv in H as (? & w7 & [= _ <-] & H).
  apply bind_Ok_inv in H as (? & w8 & H8 & H).
  apply print_hex_field_Ok_inv in H8 as (E8 & d8 & hc & Hd8 & Hc).
  apply bind_Ok_inv in H as (? & w9 & H9 & H).
  apply print_hex_field_Ok_inv in H9 as (E9 & d9 & a & Hd9 & Ha).
  apply bind_Ok_inv in H as (? & w10 & H10 & H).
  apply print_hex_field_Ok_inv in H10 as (E10 & d10 & b & Hd10 & Hb).
  apply bind_Ok_inv in H as (? & w11 & H11 & H).
  apply print_hex_field_Ok_inv in H11 as (E11 & d11 & c & Hd11 & Hv).
  change (cur_chip_map w6 !! k = Some d8) in Hd8.
  change (cur_chip_map w8 = cur_chip_map w6) in E8.
  assert (d' = d) as -> by congruence.
  assert (d8 = d) as -> by congruence.
  assert (d9 = d) as -> by congruence.
  assert (d10 = d) as -> by congruence.
  assert (d11 = d) as -> by congruence.
  now exists d, name, id, hc, a, b, c.
Qed.

End Facts.

(** ** Bytes on the wire *)

Lemma of_byte_inj (b c : byte) : Hex.of_byte b = Hex.of_byte c → b = c.
Proof.
  intros H. apply (f_equal Hex.fromhex) in H.
  rewrite !fromhex_of_byte in H. congruence.
Qed.

Lemma tx_sent {D} b (w : World D) : tx (sent b w) = (tx w ++ [b])%list.
Proof. unfold sent, deliver. now destruct (react D (Wrote b) (dev w)). Qed.

Lemma tx_sent_all {D} bs : ∀ w : World D, tx (sent_all bs w) = (tx w ++ bs)%list.
Proof.
  induction bs as [|b bs IH]; intros w; cbn [sent_all fold_left].
  - now rewrite List.app_nil_r.
  - fold (sent_all bs (sent b w)). rewrite IH, tx_sent. now rewrite <- List.app_assoc.
Qed.

Lemma sent_all_app {D} bs1 bs2 (w : World D) :
  sent_all bs2 (sent_all bs1 w) = sent_all (bs1 ++ bs2) w.
Proof. unfold sent_all. now rewrite fold_left_app. Qed.

Lemma write_serial_raw_go_run {D} data : ∀ sdata fuel (w : World D),
  write_serial_raw_go data false sdata fuel w
  = Ok (sdata ++ map Hex.of_byte data)%list (sent_all data w).
Proof.
  induction data as [|b data IH]; intros sdata fuel w; cbn [write_serial_raw_go].
  - unfold ret. now rewrite List.app_nil_r.
  - erewrite bind_run
      by (erewrite bind_run by (rewrite fromhex_of_byte; reflexivity); reflexivity).
    rewrite IH. cbn [map]. now rewrite <- List.app_assoc.
Qed.

(** A raw write hands every byte of [data] to the port, in order. *)
Lemma write_serial_raw_run {D} data fuel (w : World D) :
  write_serial_raw data false fuel w = Ok tt (sent_all data w).
Proof.
  unfold write_serial_raw.
  erewrite bind_run by apply write_serial_raw_go_run. reflexivity.
Qed.

Lemma write_serial_byte {D} c fuel (w : World D) :
  write_serial (Hex.of_byte c) fuel w = Ok tt (sent c w).
Proof.
  unfold write_serial.
  erewrite bind_run by (rewrite fromhex_of_byte; reflexivity).
  unfold write_serial_raw. cbn [write_serial_raw_go].
  erewrite bind_run
    by (erewrite bind_run
          by (erewrite bind_run by (rewrite fromhex_of_byte; reflexivity);
              reflexivity);
        reflexivity).
  reflexivity.
Qed.

Lemma write_serial_run {D} bs fuel (w : World D) :
  write_serial (Hex.of_bytes bs) fuel w = Ok tt (sent_all bs w).
Proof.
  unfold write_serial.
  erewrite bind_run by (rewrite fromhex_of_bytes; reflexivity).
  apply write_serial_raw_run.
Qed.

(** Reading, printing and parsing the DA header send nothing. *)
Lemma deliver_tx {D} ev (w : World D) : tx (deliver ev w) = tx w.
Proof. unfold deliver. now destruct (react D ev (dev w)). Qed.

Lemma keeps_tx_block_read {D} n : keeps (D:=D) tx (block_read n).
Proof.
  intros fuel. induction n as [|n IH]; intros w; simpl.
  - now destruct (rx w).
  - destruct (rx w); simpl; [|reflexivity].
    specialize (IH (deliver Idle w)).
    destruct (final (block_read n fuel (deliver Idle w))) as [w'|]; [|trivial].
    rewrite IH. apply deliver_tx.
Qed.

Lemma keeps_tx_print {D} line : keeps (D:=D) tx (print line).
Proof. now intros fuel w. Qed.

Lemma keeps_tx_read_serial {D} n : keeps (D:=D) tx (read_serial n).
Proof.
  unfold read_serial.
  apply keeps_bind; [|intros; apply keeps_bind; [apply keeps_ret|intros; apply keeps_ret]].
  generalize (@nil string).
  induction n as [|n IH]; intros acc; simpl; [apply keeps_ret|].
  apply keeps_bind; [apply keeps_with_budget, keeps_tx_block_read | intros; apply IH].
Qed.

Lemma keeps_tx_s_in_waiting {D} : keeps (D:=D) tx s_in_waiting.
Proof. intros fuel w. apply deliver_tx. Qed.

Lemma keeps_tx_spin {D} n : keeps (D:=D) tx (spin n).
Proof.
  induction n as [|n IH]; cbn [spin]; [apply keeps_diverge|].
  apply keeps_bind; [apply keeps_tx_s_in_waiting|]. intros k.
  apply keeps_if; [apply IH | apply keeps_ret].
Qed.

Lemma keeps_tx_drain {D} n : ∀ rdata, keeps (D:=D) tx (drain n rdata).
Proof.
  induction n as [|n IH]; intros rdata; cbn [drain]; [apply keeps_ret|].
  apply keeps_bind; [apply keeps_tx_read_serial | intros; apply IH].
Qed.

(** One step of the handshake sends exactly its magic byte. *)
Lemma handshake_byte_tx {D} b rdata fuel (w w1 : World D) r :
  handshake_byte b rdata fuel w = Ok r w1 → tx w1 = (tx w ++ [b])%list.
Proof.
  unfold handshake_byte. intros H.
  rewrite (bind_run _ _ _ _ _ _ (write_serial_byte b fuel w)) in H.
  assert (keeps (D:=D) tx
            (bind (with_budget spin)
               (λ _, bind (read_serial 1)
                  (λ r0, bind s_in_waiting
                     (λ rb_count, drain rb_count (rdata +:+ String.concat "" r0))))))
    as K.
  { apply keeps_bind; [apply keeps_with_budget, keeps_tx_spin|]. intros _.
    apply keeps_bind; [apply keeps_tx_read_serial|]. intros r0.
    apply keeps_bind; [apply keeps_tx_s_in_waiting|]. intros k.
    apply keeps_tx_drain. }
  rewrite (keeps_Ok tx _ _ _ _ _ K H). apply tx_sent.
Qed.

(** ** Chip identification *)

Lemma get_chip_id_after_queries {D} fuel (w w2 : World D) hw sub :
  chip_queries fuel (printed querying w) = Ok (hw, sub) w2 →
  get_chip_id fuel w = chip_fill hw sub fuel w2.
Proof.
  intros H. unfold get_chip_id.
  erewrite bind_run by apply print_run.
  erewrite bind_run by exact H. reflexivity.
Qed.

Lemma chip_queries_table {D} fuel (w w2 : World D) line r :
  chip_queries fuel (printed line w) = Ok r w2 → cur_chip_map w2 = cur_chip_map w.
Proof. intros H. now apply (keeps_Ok cur_chip_map _ _ _ _ _ keeps_chip_queries) in H. Qed.

(** C3, amended: when the first query's bytes decode (big-endian) to
    0x07660000 and the second query's bytes decode to a word whose
    derived fields are 1, 2 and 3, [get_chip_id] returns the descriptor
    named "MT6765" with hw_code 0x6765, hw_sub_code 1, hw_version 2,
    sw_version 3; and when the code derived from the first word (the
    word shifted right by 16) is not a key of the table, [get_chip_id]
    fails with the table's look-up error for that code once the second
    query has also been echoed and has returned: the table is consulted
    only after both exchanges. *)
Theorem C3_get_chip_id_decodes {D} fuel (w w1 w2 : World D) bs1 bs2 :
  let hw_word := int_from_bytes_big bs1 in
  let sub_word := int_from_bytes_big bs2 in
  table_static (cur_chip_map w) = chip_map →
  read_resp "fd" 100 fuel (printed querying w) = Ok (Some (map Hex.of_byte bs1)) w1 →
  read_resp "fc" 100 fuel w1 = Ok (Some (map Hex.of_byte bs2)) w2 →
  (hw_word = 0x07660000%Z →
   Z.shiftr (Z.shiftr sub_word 32) 16 = 1%Z →
   Z.land (Z.shiftr sub_word 32) 0xFFFF = 2%Z →
   Z.land sub_word 0xFFFFFFFF = 3%Z →
   ∃ ref w' desc,
     get_chip_id fuel w = Ok ref w' ∧
     cur_chip_map w' !! ref = Some desc ∧
     desc !! "name" = Some (FStr "MT6765") ∧
     desc !! "hw_code" = Some (FInt 0x6765) ∧
     desc !! "hw_sub_code" = Some (FInt 1) ∧
     desc !! "hw_version" = Some (FInt 2) ∧
     desc !! "sw_version" = Some (FInt 3))
  ∧ (chip_map !! Z.shiftr hw_word 16 = None →
     get_chip_id fuel w = Raise (KeyErrorInt (Z.shiftr hw_word 16)) w2).
Proof.
  intros hw_word sub_word Hst H1 H2.
  pose proof (chip_queries_run _ _ _ _ _ _ H1 H2) as Hq.
  pose proof (chip_queries_table _ _ _ _ _ Hq) as Ht.
  rewrite (get_chip_id_after_queries _ _ _ _ _ Hq).
  fold hw_word sub_word. rewrite <- Ht in Hst. split.
  - intros Hw Ha Hb Hc.
    destruct (static_entry _ Hst) as (d & Hd & Hid & Hname & Hcode).
    assert (Z.shiftr hw_word 16 = 0x766%Z) as Hk by now rewrite Hw.
    rewrite (chip_fill_found _ _ _ _ d) by now rewrite Hk.
    rewrite Hk.
    assert (∀ key, ¬ derived_key key → augmented sub_word d !! key = d !! key) as S
      by (intros; now apply augmented_static).
    assert (¬ derived_key "name" ∧ ¬ derived_key "id" ∧ ¬ derived_key "hw_code")
      as (N1 & N2 & N3)
      by (unfold derived_key; repeat split; intros [|[|]]; discriminate).
    erewrite (chip_report_run _ _ _ (augmented sub_word d)
                (FStr "MT6765") 0x766 0x6765 1 2 3).
    + exists 0x766%Z. eexists. exists (augmented sub_word d).
      split; [reflexivity|]. split.
      { change (augment 0x766 sub_word (cur_chip_map w2) !! 0x766%Z
                = Some (augmented sub_word d)).
        now rewrite augment_lookup, Hd. }
      rewrite !S, Hname, Hcode by assumption.
      unfold augmented. rewrite Ha, Hb, Hc.
      repeat split; try reflexivity.
      * rewrite lookup_insert_ne by discriminate.
        rewrite lookup_insert_ne by discriminate. apply lookup_insert_eq.
      * rewrite lookup_insert_ne by discriminate. apply lookup_insert_eq.
      * apply lookup_insert_eq.
    + change (augment 0x766 sub_word (cur_chip_map w2) !! 0x766%Z
              = Some (augmented sub_word d)).
      now rewrite augment_lookup, Hd.
    + now rewrite S.
    + now rewrite S.
    + now rewrite S.
    + unfold augmented. rewrite Ha.
      rewrite lookup_insert_ne by discriminate.
      rewrite lookup_insert_ne by discriminate. apply lookup_insert_eq.
    + unfold augmented. rewrite Hb.
      rewrite lookup_insert_ne by discriminate. apply lookup_insert_eq.
    + unfold augmented. rewrite Hc. apply lookup_insert_eq.
  - intros Habs. apply chip_fill_missing. now apply static_absent.
Qed.

Lemma C3_witness :
  (∃ ref w' desc,
     get_chip_id 20 (script [[xfd]; [xfc]] [id_bytes; sub_bytes]) = Ok ref w' ∧
     cur_chip_map w' !! ref = Some desc ∧
     desc !! "name" = Some (FStr "MT6765") ∧
     desc !! "hw_code" = Some (FInt 0x6765) ∧
     desc !! "hw_sub_code" = Some (FInt 1) ∧
     desc !! "hw_version" = Some (FInt 2) ∧
     desc !! "sw_version" = Some (FInt 3))
  ∧ get_chip_id 20 (script [[xfd]; [xfc]] [[x67; x65; x00; x00]; sub_bytes])
    = Raise (KeyErrorInt 0x6765)
        (mkWorld (D:=scripted) ([], []) [] [xfd; xfc] [100%N; 100%N] [querying] chip_map ∅).
Proof.
  split.
  - apply (proj1 (C3_get_chip_id_decodes 20
              (script [[xfd]; [xfc]] [id_bytes; sub_bytes])
              (mkWorld (D:=scripted) ([[xfc]], [sub_bytes]) [] [xfd] [100%N] [querying] chip_map ∅)
              (mkWorld (D:=scripted) ([], []) [] [xfd; xfc] [100%N; 100%N] [querying] chip_map ∅)
              id_bytes sub_bytes chip_map_static
              ltac:(vm_compute; reflexivity) ltac:(vm_compute; reflexivity)));
      vm_compute; reflexivity.
  - apply (proj2 (C3_get_chip_id_decodes 20
              (script [[xfd]; [xfc]] [[x67; x65; x00; x00]; sub_bytes])
              (mkWorld (D:=scripted) ([[xfc]], [sub_bytes]) [] [xfd] [100%N] [querying] chip_map ∅)
              (mkWorld (D:=scripted) ([], []) [] [xfd; xfc] [100%N; 100%N] [querying] chip_map ∅)
              [x67; x65; x00; x00] sub_bytes chip_map_static
              ltac:(vm_compute; reflexivity) ltac:(vm_compute; reflexivity))).
    vm_compute; reflexivity.
Defined.

(** C10, amended: when the hardware-code query (FD) is echoed but
    answered by no bytes within the poll bound ([read_resp] returns the
    empty list) and the second query (FC) is then echoed and returns,
    the empty answer decodes to 0, and [get_chip_id] looks up code 0 in
    the table and fails with the look-up error of an unknown chip; there
    is no separate time-out outcome. *)
Theorem C10_silent_query_is_unknown_chip {D} fuel (w w1 w2 : World D) r2 :
  table_static (cur_chip_map w) = chip_map →
  read_resp "fd" 100 fuel (printed querying w) = Ok (Some []) w1 →
  read_resp "fc" 100 fuel w1 = Ok (Some r2) w2 →
  bstr_to_int (Some []) fuel w1 = Ok 0%Z w1 ∧
  get_chip_id fuel w = Raise (KeyErrorInt 0) w2.
Proof.
  intros Hst H1 H2. split; [reflexivity|].
  destruct (read_resp_hex _ _ _ _ _ _ H2) as (bs2 & ->).
  pose proof (chip_queries_run fuel _ [] _ _ _ H1 H2) as Hq.
  rewrite (get_chip_id_after_queries _ _ _ _ _ Hq).
  apply (chip_fill_missing (int_from_bytes_big [])).
  apply static_absent; [|reflexivity].
  now rewrite (chip_queries_table _ _ _ _ _ Hq).
Qed.

Lemma C10_witness :
  bstr_to_int (D:=scripted) (Some []) 20
    (mkWorld (D:=scripted) ([[xfc]], []) [] [xfd] (repeat 100%N 17) [querying] chip_map ∅)
  = Ok 0%Z
    (mkWorld (D:=scripted) ([[xfc]], []) [] [xfd] (repeat 100%N 17) [querying] chip_map ∅)
  ∧ get_chip_id 20 (script [[xfd]; [xfc]] [])
    = Raise (KeyErrorInt 0)
        (mkWorld (D:=scripted) ([], []) [] [xfd; xfc] (repeat 100%N 34) [querying] chip_map ∅).
Proof.
  apply (C10_silent_query_is_unknown_chip 20 (script [[xfd]; [xfc]] []) _ _ []
           chip_map_static); vm_compute; reflexivity.
Defined.

(** ** The chip table is updated in place *)

Lemma keeps_static {D A} (m : M D A) : keeps cur_chip_map m → keeps static_table m.
Proof. apply (keeps_compose cur_chip_map table_static). Qed.

Lemma keeps_static_dict_set {D} ref key v :
  derived_key key → keeps (D:=D) static_table (dict_set ref key v).
Proof.
  intros Hk fuel w. unfold dict_set, bind, get_world, set_chip_map, static_table.
  simpl. now apply table_static_alter.
Qed.

Lemma keeps_static_chip_fill {D} hw sub : keeps (D:=D) static_table (chip_fill hw sub).
Proof.
  unfold chip_fill.
  apply keeps_bind; [apply keeps_get_world|]. intros w.
  apply keeps_bind; [destruct (cur_chip_map w !! _); [apply keeps_ret | apply keeps_raise]|].
  intros ref.
  repeat (apply keeps_bind;
          [apply keeps_static_dict_set; unfold derived_key; auto | intros _]).
  apply keeps_static, keeps_chip_report.
Qed.

Lemma keeps_static_get_chip_id {D} : keeps (D:=D) static_table get_chip_id.
Proof.
  unfold get_chip_id.
  apply keeps_bind; [apply keeps_static, keeps_print|]. intros _.
  apply keeps_bind; [apply keeps_static, keeps_chip_queries|]. intros [hw sub].
  apply keeps_static_chip_fill.
Qed.

Lemma chip_fill_Ok_inv {D} hw sub fuel (w w' : World D) ref :
  chip_fill hw sub fuel w = Ok ref w' →
  ref = Z.shiftr hw 16 ∧
  cur_chip_map w' = augment ref sub (cur_chip_map w) ∧
  ∃ d name id hc a b c,
    cur_chip_map w' !! ref = Some d ∧
    d !! "name" = Some name ∧ d !! "id" = Some (FInt id) ∧
    d !! "hw_code" = Some (FInt hc) ∧ d !! "hw_sub_code" = Some (FInt a) ∧
    d !! "hw_version" = Some (FInt b) ∧ d !! "sw_version" = Some (FInt c).
Proof.
  intros H.
  destruct (cur_chip_map w !! Z.shiftr hw 16) as [d0|] eqn:E;
    [|rewrite chip_fill_missing in H by assumption; discriminate].
  rewrite (chip_fill_found _ _ _ _ _ E) in H.
  pose proof (keeps_Ok cur_chip_map _ _ _ _ _ (keeps_chip_report _) H) as Ht.
  change (cur_chip_map w' = augment (Z.shiftr hw 16) sub (cur_chip_map w)) in Ht.
  destruct (chip_report_Ok_inv _ _ _ _ _ H) as (d & name & id & hc & a & b & c & Hd & F).
  change (augment (Z.shiftr hw 16) sub (cur_chip_map w) !! Z.shiftr hw 16 = Some d) in Hd.
  destruct F as (Hn & Hi & Hc & Ha & Hb & Hv).
  rewrite (chip_report_run _ _ _ d name id hc a b c) in H by assumption.
  injection H as <- _.
  split; [reflexivity|]. split; [assumption|].
  exists d, name, id, hc, a, b, c. rewrite Ht. now repeat split.
Qed.




(** ** Handshake *)

Lemma drain_hex {D} n : ∀ rdata fuel (w w' : World D) rdata',
  drain n rdata fuel w = Ok rdata' w' →
  ∃ bs, rdata' = rdata +:+ Hex.of_bytes bs.
Proof.
  induction n as [|n IH]; intros rdata fuel w w' rdata' H; simpl in H.
  - injection H as <- _. exists []. now rewrite sapp_nil_r.
  - apply bind_Ok_inv in H as (r & w1 & Hr & H).
    apply read_serial_hex in Hr as (bs & -> & _).
    apply IH in H as (bs' & ->). exists (bs ++ bs')%list.
    now rewrite of_bytes_app, sapp_assoc.
Qed.

Lemma handshake_byte_hex {D} b rdata fuel (w w' : World D) rdata' :
  handshake_byte b rdata fuel w = Ok rdata' w' →
  ∃ bs, rdata' = rdata +:+ Hex.of_bytes bs.
Proof.
  unfold handshake_byte. intros H.
  apply bind_Ok_inv in H as (? & w1 & _ & H).
  apply bind_Ok_inv in H as (? & w2 & _ & H).
  apply bind_Ok_inv in H as (r & w3 & Hr & H).
  apply read_serial_hex in Hr as (bs & -> & _).
  apply bind_Ok_inv in H as (k & w4 & _ & H).
  apply drain_hex in H as (bs' & ->). exists (bs ++ bs')%list.
  now rewrite of_bytes_app, sapp_assoc.
Qed.

Lemma handshake_for_hex {D} cmd_bytes : ∀ rdata retry p fuel (w w' : World D) rdata' retry' p',
  handshake_for cmd_bytes rdata retry p fuel w = Ok (rdata', retry', p') w' →
  ∃ bs, rdata' = rdata +:+ Hex.of_bytes bs.
Proof.
  induction cmd_bytes as [|b cmd_bytes IH];
    intros rdata retry p fuel w w' rdata' retry' p' H; simpl in H.
  - injection H as <- _ _ _. exists []. now rewrite sapp_nil_r.
  - apply bind_Ok_inv in H as (rd & w1 & Hb & H).
    apply handshake_byte_hex in Hb as (bs & ->).
    destruct (String.eqb _ preloader_greet).
    + injection H as <- _ _ _. now exists bs.
    + apply IH in H as (bs' & ->). exists (bs ++ bs')%list.
      now rewrite of_bytes_app, sapp_assoc.
Qed.

(** The accumulator is always the hexadecimal text of the bytes the
    device sent during the last pass over the magic. *)
Lemma handshake_while_hex {D} n : ∀ cmd_bytes p fuel (w w' : World D) rdata p',
  handshake_while n cmd_bytes p fuel w = Ok (rdata, p') w' →
  ∃ bs, rdata = Hex.of_bytes bs.
Proof.
  induction n as [|n IH]; intros cmd_bytes p fuel w w' rdata p' H; simpl in H;
    [discriminate|].
  apply bind_Ok_inv in H as ([[rd retry] q] & w1 & Hf & H).
  destruct retry.
  - now apply IH in H.
  - injection H as <- _ _. apply handshake_for_hex in Hf as (bs & ->).
    now exists bs.
Qed.

Lemma try_handshake_verdict {D} port fuel (w w1 : World D) rdata is_preloader :
  handshake_while fuel magic_bytes false fuel (printed (attempting port) w)
  = Ok (rdata, is_preloader) w1 →
  try_handshake port fuel w = handshake_verdict port rdata is_preloader fuel w1.
Proof.
  intros H. unfold try_handshake.
  erewrite bind_run by apply print_run.
  erewrite bind_run by reflexivity.
  erewrite bind_run by exact H. reflexivity.
Qed.

(** C2: whenever the handshake loop over the magic A0 0A 50 05 ends with
    the accumulated answer [resp]: if [resp] is 5F F5 AF FA the handshake
    succeeds, in Preloader mode when the READY greeting was recorded and
    in BootROM mode otherwise; if [resp] is the magic itself the outcome
    is the warning "already handshaked" and the function returns; any
    other [resp] is a hard failure that exits the process. *)
Theorem C2_handshake_outcomes {D} port fuel (w w1 : World D) rdata is_preloader :
  handshake_while fuel magic_bytes false fuel (printed (attempting port) w)
  = Ok (rdata, is_preloader) w1 →
  ∃ resp, rdata = Hex.of_bytes resp ∧
    (resp = reply_bytes →
     try_handshake port fuel w
     = Ok (PyBool true)
         (printed_all
            ["Handshake success! Found MTK device at " +:+ port;
             "Device connected via " +:+ (if is_preloader then "Preloader" else "BootROM")]
            w1)) ∧
    (resp = magic_bytes →
     try_handshake port fuel w = Ok PyNone (printed already_done w1)) ∧
    (resp ≠ reply_bytes → resp ≠ magic_bytes →
     try_handshake port fuel w
     = Raise (SystemExit 0) (printed "Handshake failed! Aborting." w1)).
Proof.
  intros H. rewrite (try_handshake_verdict _ _ _ _ _ _ H).
  destruct (handshake_while_hex _ _ _ _ _ _ _ _ H) as (resp & ->).
  exists resp. split; [reflexivity|]. unfold handshake_verdict.
  repeat split.
  - intros ->. change (String.eqb (Hex.of_bytes reply_bytes) handshake_magic) with true.
    cbv iota. unfold bind, print, ret, printed. now rewrite printed_all_app.
  - intros ->. reflexivity.
  - intros N1 N2.
    assert (String.eqb (Hex.of_bytes resp) handshake_magic = false) as ->.
    { apply String.eqb_neq. intros E. apply N1. now apply of_bytes_inj. }
    assert (String.eqb (Hex.of_bytes resp) handshake_data = false) as ->.
    { apply String.eqb_neq. intros E. apply N2. now apply of_bytes_inj. }
    reflexivity.
Qed.

Lemma C2_witness :
  try_handshake "COM1" 5 (script [[x5f]; [xf5]; [xaf]; [xfa]] [])
  = Ok (PyBool true)
      (printed_all ["Handshake success! Found MTK device at COM1";
                    "Device connected via BootROM"]
         (after_handshake magic_bytes "COM1"))
  ∧ try_handshake "COM1" 5 (script [greet_bytes; [x5f]; [xf5]; [xaf]; [xfa]] [])
    = Ok (PyBool true)
        (printed_all ["Handshake success! Found MTK device at COM1";
                      "Device connected via Preloader"]
           (after_handshake (xa0 :: magic_bytes) "COM1"))
  ∧ try_handshake "COM1" 5 (script [[xa0]; [x0a]; [x50]; [x05]] [])
    = Ok PyNone (printed already_done (after_handshake magic_bytes "COM1"))
  ∧ try_handshake "COM1" 5 (script [[x00]; [x00]; [x00]; [x00]] [])
    = Raise (SystemExit 0)
        (printed "Handshake failed! Aborting." (after_handshake magic_bytes "COM1")).
Proof.
  split; [|split; [|split]].
  - destruct (C2_handshake_outcomes "COM1" 5 (script [[x5f]; [xf5]; [xaf]; [xfa]] [])
                (after_handshake magic_bytes "COM1") (Hex.of_bytes reply_bytes) false
                ltac:(vm_compute; reflexivity)) as (resp & E & A & _).
    apply A. symmetry. now apply of_bytes_inj.
  - destruct (C2_handshake_outcomes "COM1" 5
                (script [greet_bytes; [x5f]; [xf5]; [xaf]; [xfa]] [])
                (after_handshake (xa0 :: magic_bytes) "COM1") (Hex.of_bytes reply_bytes) true
                ltac:(vm_compute; reflexivity)) as (resp & E & A & _).
    apply A. symmetry. now apply of_bytes_inj.
  - destruct (C2_handshake_outcomes "COM1" 5 (script [[xa0]; [x0a]; [x50]; [x05]] [])
                (after_handshake magic_bytes "COM1") (Hex.of_bytes magic_bytes) false
                ltac:(vm_compute; reflexivity)) as (resp & E & _ & B & _).
    apply B. symmetry. now apply of_bytes_inj.
  - destruct (C2_handshake_outcomes "COM1" 5 (script [[x00]; [x00]; [x00]; [x00]] [])
                (after_handshake magic_bytes "COM1")
                (Hex.of_bytes [x00; x00; x00; x00]) false
                ltac:(vm_compute; reflexivity)) as (resp & E & _ & _ & C).
    apply of_bytes_inj in E. subst resp. apply C; discriminate.
Defined.

(** C6, as stated, fails: a Preloader greets with READY after the first
    magic byte and then completes the handshake.  The first byte of the
    pass yields READY, the run ends in Preloader mode, and what the host
    has sent is A0 followed by the whole magic again. *)
Lemma C6_greeting_restarts_magic :
  handshake_byte xa0 "" 5
    (printed (attempting "COM1") (script [greet_bytes; [x5f]; [xf5]; [xaf]; [xfa]] []))
  = Ok preloader_greet
      (mkWorld (D:=scripted) ([[x5f]; [xf5]; [xaf]; [xfa]], []) [] [xa0] []
         [attempting "COM1"] chip_map ∅)
  ∧ (∃ w', try_handshake "COM1" 5 (script [greet_bytes; [x5f]; [xf5]; [xaf]; [xfa]] [])
           = Ok (PyBool true) w'
           ∧ In "Device connected via Preloader" (stdout w')
           ∧ tx w' = [xa0; xa0; x0a; x50; x05])
  ∧ ¬ resumes_magic "COM1" 5 (script [greet_bytes; [x5f]; [xf5]; [xaf]; [xfa]] []).
Proof.
  split; [vm_compute; reflexivity|]. split.
  - eexists. split; [vm_compute; reflexivity|]. split; [|reflexivity].
    right. right. left. reflexivity.
  - intros R.
    specialize (R (PyBool true)
                  (printed_all ["Handshake success! Found MTK device at COM1";
                                "Device connected via Preloader"]
                     (after_handshake (xa0 :: magic_bytes) "COM1"))
                  ltac:(vm_compute; reflexivity)
                  ltac:(right; right; left; reflexivity)).
    vm_compute in R. discriminate.
Qed.

(** When the greeting is complete only after a later byte of the pass,
    the loop is left for good and the handshake fails: here "RE" answers
    the first byte and "ADY" the second. *)
Lemma late_greeting_fails :
  try_handshake "COM1" 5 (script [[x52; x45]; [x41; x44; x59]; [x5f]; [xf5]] [])
  = Raise (SystemExit 0)
      (printed "Handshake failed! Aborting."
         (mkWorld (D:=scripted) ([[x5f]; [xf5]], []) [] [xa0; x0a] []
            [attempting "COM1"] chip_map ∅)).
Proof. vm_compute. reflexivity. Qed.

(** C6, amended: when the accumulator equals the text of "READY" after
    the first magic byte of a pass, the protocol records Preloader mode,
    drops the accumulator and sends the whole magic again from its first
    byte: only that one byte has been sent in the pass, and the loop goes
    on as a fresh pass over the whole magic from the world the greeting
    left, with the Preloader flag set. *)
Theorem C6_greeting_restarts_pass {D} n b rest is_preloader fuel (w w1 : World D) :
  handshake_byte b "" fuel w = Ok preloader_greet w1 →
  tx w1 = (tx w ++ [b])%list ∧
  handshake_while (S n) (b :: rest) is_preloader fuel w
  = handshake_while n (b :: rest) true fuel w1.
Proof.
  intros H. split; [exact (handshake_byte_tx _ _ _ _ _ _ H)|].
  cbn [handshake_while handshake_for].
  erewrite bind_run by (erewrite bind_run by exact H; reflexivity).
  reflexivity.
Qed.

Lemma C6_witness :
  tx (mkWorld (D:=scripted) ([[x5f]; [xf5]; [xaf]; [xfa]], []) [] [xa0] []
        [attempting "COM1"] chip_map ∅)
  = (tx (printed (attempting "COM1")
           (script [greet_bytes; [x5f]; [xf5]; [xaf]; [xfa]] [])) ++ [xa0])%list
  ∧ handshake_while 5 magic_bytes false 5
      (printed (attempting "COM1") (script [greet_bytes; [x5f]; [xf5]; [xaf]; [xfa]] []))
    = handshake_while 4 magic_bytes true 5
        (mkWorld (D:=scripted) ([[x5f]; [xf5]; [xaf]; [xfa]], []) [] [xa0] []
           [attempting "COM1"] chip_map ∅).
Proof.
  apply (C6_greeting_restarts_pass 4 xa0 [x0a; x50; x05] false 5).
  vm_compute; reflexivity.
Defined.

(** ** The DA image header *)

Lemma until_x_hex_uint (u : Hexadecimal.uint) :
  until_x (NilEmpty.string_of_uint u) = NilEmpty.string_of_uint u.
Proof. induction u; simpl; congruence. Qed.

Lemma until_x_digits (n : N) : until_x (Hex.digits n) = Hex.digits n.
Proof.
  unfold Hex.digits, NilZero.string_of_uint.
  destruct (N.to_hex_uint n) eqn:E; try reflexivity;
    rewrite <- E; apply until_x_hex_uint.
Qed.

Lemma split_x_1_py_hex (z : Z) :
  (0 ≤ z)%Z → split_x_1 (Hex.py_hex z) = Some (Hex.digits (Z.to_N z)).
Proof.
  intros Hz. unfold Hex.py_hex.
  destruct (Z.ltb_spec z 0) as [|_]; [lia|].
  rewrite !sapp_cons. cbn [split_x_1]. change ("" +:+ ?s) with s.
  cbn. f_equal. apply until_x_digits.
Qed.

Lemma word_at_some (content : list byte) (off : nat) :
  (off + 4 ≤ length content)%nat →
  unpack_le32 (take 4 (drop off content)) = Some (word_at content off).
Proof.
  intros H. unfold word_at.
  assert (length (take 4 (drop off content)) = 4) as L
    by (rewrite length_take, length_drop; lia).
  destruct (take 4 (drop off content)) as [|b0 [|b1 [|b2 [|b3 [|? ?]]]]];
    try discriminate. reflexivity.
Qed.

Lemma word_at_nonneg (content : list byte) (off : nat) : (0 ≤ word_at content off)%Z.
Proof.
  unfold word_at, unpack_le32.
  destruct (take 4 (drop off content)) as [|b0 [|b1 [|b2 [|b3 [|? ?]]]]];
    try (simpl; lia).
  cbn [from_option id]. rewrite !Z.lor_nonneg, !Z.shiftl_nonneg. lia.
Qed.

Lemma f_read_run (n pos : nat) (data : list byte) :
  (pos + n ≤ length data)%nat →
  f_read n (mkFile data pos) = (take n (drop pos data), mkFile data (pos + n)).
Proof.
  intros H. unfold f_read. cbn [f_data f_pos]. do 2 f_equal.
  rewrite length_take, length_drop. lia.
Qed.

Lemma read_file_run {D} path fuel (w : World D) content :
  files w !! path = Some content → read_file path fuel w = Ok content w.
Proof. intros H. unfold read_file, bind, get_world. now rewrite H. Qed.

Lemma load_da_records_run {D} content n : ∀ pos fuel (w : World D),
  (pos + 220 * n ≤ length content)%nat →
  load_da_records n (mkFile content pos) fuel w
  = Ok (mkFile content (pos + 220 * n))
      (printed_all
         (map (λ i, da_line (Z.shiftr (word_at content (pos + 220 * i)) 16)) (seq 0 n))
         w).
Proof.
  induction n as [|n IH]; intros pos fuel w H.
  - cbn [load_da_records seq map]. rewrite printed_all_nil.
    unfold ret. do 2 f_equal. lia.
  - cbn [load_da_records]. rewrite f_read_run by lia.
    erewrite bind_run by (rewrite word_at_some by lia; reflexivity).
    erewrite bind_run
      by (rewrite split_x_1_py_hex
            by (apply Z.shiftr_nonneg, word_at_nonneg); reflexivity).
    erewrite bind_run by apply print_run.
    unfold f_seek, f_tell. cbn [f_data f_pos].
    replace (pos + 4 + 220 - 4) with (pos + 220) by lia.
    rewrite IH by lia. unfold printed. rewrite printed_all_app.
    f_equal; [f_equal; lia|]. f_equal.
    cbn [seq map]. rewrite <- seq_shift, map_map.
    change ([?x] ++ ?l)%list with (x :: l). f_equal.
    + now replace (pos + 220 * 0) with pos by lia.
    + apply map_ext. intros i.
      now replace (pos + 220 + 220 * i) with (pos + 220 * S i) by lia.
Qed.

(** C8: for every DA image that holds, at offset 0x68, a little-endian
    32-bit count [n] followed by [n] records of 220 bytes, [load_da]
    reports, in order, the [n] hardware codes obtained by decoding the
    leading four bytes of each record little-endian and shifting right by
    16, and its read cursor ends 4 + n * 220 bytes past offset 0x68. *)
Theorem C8_load_da_parses_header {D} fuel (w : World D) content n :
  files w !! da_path = Some content →
  unpack_le32 (take 4 (drop 0x68 content)) = Some (Z.of_nat n) →
  (0x68 + 4 + 220 * n ≤ length content)%nat →
  ∃ f,
    load_da_locals fuel w
    = Ok f (printed_all (da_header ++ map da_line (da_codes content n) ++ da_footer n) w)
    ∧ f_tell f = 0x68 + 4 + n * 220.
Proof.
  intros Hfile Hcount Hlen. unfold load_da_locals.
  erewrite bind_run by (apply read_file_run; exact Hfile).
  do 5 (erewrite bind_run by apply print_run).
  unfold f_seek. cbn [f_data]. rewrite f_read_run by lia.
  erewrite bind_run by (rewrite Hcount; reflexivity).
  rewrite Nat2Z.id.
  erewrite bind_run by (apply load_da_records_run; lia).
  do 2 (erewrite bind_run by apply print_run).
  eexists. split.
  - unfold ret. f_equal. unfold printed. rewrite !printed_all_app.
    f_equal. unfold da_header, da_footer, da_codes. rewrite map_map.
    reflexivity.
  - cbn [f_tell f_pos]. lia.
Qed.

Lemma C8_witness :
  ∃ f,
    load_da_locals 0 da_world
    = Ok f (printed_all
              (da_header ++ ["    - MT6765"; "    - MT6761"; "    - MT6768"] ++ da_footer 3)
              da_world)
    ∧ f_tell f = 0x68 + 4 + 3 * 220.
Proof.
  destruct (C8_load_da_parses_header 0 da_world da_image 3
              ltac:(vm_compute; reflexivity) ltac:(vm_compute; reflexivity)
              ltac:(vm_compute; lia)) as (f & E & T).
  exists f. split; [|exact T]. rewrite E. f_equal.
Defined.

(** ** Echo mismatches and the poll bound *)

(** On a wrong echo [read_resp] falls off the end of its body: the
    caller gets [None], nothing is raised, nothing more is read. *)
Lemma read_resp_echo_mismatch {D} c b t fuel (w w2 : World D) :
  read_serial 1 fuel (sent c w) = Ok [Hex.of_byte b] w2 →
  b ≠ c →
  read_resp (Hex.of_byte c) t fuel w = Ok None w2.
Proof.
  intros Hr Hne. unfold read_resp.
  erewrite bind_run by apply write_serial_byte.
  erewrite bind_run by exact Hr.
  cbn [String.concat].
  assert (String.eqb (Hex.of_byte b) (Hex.of_byte c) = false) as ->; [|reflexivity].
  apply String.eqb_neq. intros E. now apply Hne, of_byte_inj.
Qed.

(** *** Data that is there is returned as it is *)

Lemma block_read_ready {D} n fuel (w : World D) b rest :
  rx w = b :: rest → block_read n fuel w = Ok b (with_rx rest w).
Proof. intros H. destruct n; simpl; now rewrite H. Qed.

Lemma with_rx_same {D} (w : World D) : with_rx (rx w) w = w.
Proof. now destruct w. Qed.

Lemma read_serial_go_buffered {D} bs : ∀ rest acc fuel (w : World D),
  rx w = (bs ++ rest)%list →
  read_serial_go (length bs) acc fuel w
  = Ok (acc ++ map Hex.of_byte bs)%list (with_rx rest w).
Proof.
  induction bs as [|b bs IH]; intros rest acc fuel w H; cbn [length read_serial_go].
  - unfold ret. rewrite List.app_nil_r. cbn [app] in H. now rewrite <- H, with_rx_same.
  - erewrite bind_run by (apply block_read_ready; exact H).
    rewrite (IH rest) by reflexivity. cbn [map]. now rewrite <- List.app_assoc.
Qed.

Lemma read_serial_buffered {D} fuel (w : World D) :
  read_serial (length (rx w)) fuel w = Ok (map Hex.of_byte (rx w)) (with_rx [] w).
Proof.
  unfold read_serial.
  erewrite bind_run by (apply read_serial_go_buffered; now rewrite List.app_nil_r).
  reflexivity.
Qed.

(** Whenever [read_resp] returns a list, it is the hexadecimal text of
    exactly the bytes that were buffered when it last looked at the
    port, and it leaves the buffer empty. *)
Lemma read_resp_returns_buffer {D} cmd t fuel (w w' : World D) r :
  read_resp cmd t fuel w = Ok (Some r) w' →
  ∃ wk, r = map Hex.of_byte (rx wk) ∧ w' = with_rx [] wk.
Proof.
  unfold read_resp. intros H.
  apply bind_Ok_inv in H as (? & w1 & _ & H).
  apply bind_Ok_inv in H as (e & w2 & _ & H).
  destruct (String.eqb _ cmd); [|discriminate].
  apply bind_Ok_inv in H as (? & w3 & _ & H).
  apply bind_Ok_inv in H as (? & w4 & _ & H).
  apply bind_Ok_inv in H as (? & w5 & _ & H).
  apply bind_Ok_inv in H as (k & w6 & Hk & H).
  apply bind_Ok_inv in H as (r' & w7 & Hr & H).
  injection H as <- <-. injection Hk as <- <-.
  rewrite read_serial_buffered in Hr. injection Hr as <- <-.
  now eexists.
Qed.

(** *** A device that stays silent *)

Lemma quiet_react {D} (d : dstate D) ev :
  quiet d → passive ev → (react D ev d).2 = [] ∧ quiet (react D ev d).1.
Proof.
  intros Q P. split.
  - specialize (Q [ev] (Forall_cons_2 _ _ _ P (Forall_nil_2 _))).
    cbn [emitted] in Q. destruct (react D ev d) as [d' bs].
    now rewrite List.app_nil_r in Q.
  - intros evs Pevs. specialize (Q (ev :: evs) (Forall_cons_2 _ _ _ P Pevs)).
    cbn [emitted] in Q. destruct (react D ev d) as [d' bs].
    now apply app_eq_nil in Q.
Qed.

Lemma deliver_quiet {D} ev (w : World D) :
  quiet (dev w) → rx w = [] → passive ev →
  quiet (dev (deliver ev w)) ∧ rx (deliver ev w) = [] ∧
  naps (deliver ev w) = naps w.
Proof.
  intros Q R P. destruct (quiet_react _ ev Q P) as [E Q'].
  unfold deliver. destruct (react D ev (dev w)) as [d' bs]. simpl in *.
  subst bs. now rewrite R.
Qed.

Lemma s_in_waiting_quiet {D} fuel (w : World D) :
  quiet (dev w) → rx w = [] →
  ∃ w', s_in_waiting fuel w = Ok 0 w' ∧
        quiet (dev w') ∧ rx w' = [] ∧ naps w' = naps w.
Proof.
  intros Q R. destruct (deliver_quiet Idle w Q R I) as (Q' & R' & N').
  exists (deliver Idle w). unfold s_in_waiting. now rewrite R'.
Qed.

Lemma sleep_quiet {D} ms fuel (w : World D) :
  quiet (dev w) → rx w = [] →
  ∃ w', sleep ms fuel w = Ok tt w' ∧
        quiet (dev w') ∧ rx w' = [] ∧ naps w' = (naps w ++ [ms])%list.
Proof.
  intros Q R. destruct (deliver_quiet (Slept ms) w Q R I) as (Q' & R' & N').
  eexists. split; [reflexivity|]. cbn [dev rx naps]. now rewrite N'.
Qed.

(** On a silent device the poll loop started with counter [15 - j] runs
    to the counter value 15 and sleeps [j + 1] times on the way. *)
Lemma poll_quiet {D} fuel j : ∀ n (w : World D),
  (j ≤ 15)%nat → (j < n)%nat → quiet (dev w) → rx w = [] →
  ∃ w', poll n (15 - Z.of_nat j) fuel w = Ok 15%Z w' ∧
        quiet (dev w') ∧ rx w' = [] ∧
        naps w' = (naps w ++ repeat 100%N (S j))%list.
Proof.
  induction j as [|j IH]; intros n w Hj Hn Q R;
    (destruct n as [|n]; [lia|]); cbn [poll].
  - destruct (s_in_waiting_quiet fuel w Q R) as (w1 & E1 & Q1 & R1 & N1).
    erewrite bind_run by exact E1. cbn [Nat.eqb].
    destruct (sleep_quiet 100 fuel w1 Q1 R1) as (w2 & E2 & Q2 & R2 & N2).
    erewrite bind_run by exact E2.
    exists w2. repeat split; try assumption. now rewrite N2, N1.
  - destruct (s_in_waiting_quiet fuel w Q R) as (w1 & E1 & Q1 & R1 & N1).
    erewrite bind_run by exact E1. cbn [Nat.eqb].
    destruct (sleep_quiet 100 fuel w1 Q1 R1) as (w2 & E2 & Q2 & R2 & N2).
    erewrite bind_run by exact E2.
    destruct (Z.eqb_spec (15 - Z.of_nat (S j)) 15) as [|_]; [lia|].
    replace (15 - Z.of_nat (S j) + 1)%Z with (15 - Z.of_nat j)%Z by lia.
    destruct (IH n w2 ltac:(lia) ltac:(lia) Q2 R2) as (w3 & E3 & Q3 & R3 & N3).
    exists w3. repeat split; try assumption.
    rewrite N3, N2, N1, <- List.app_assoc. reflexivity.
Qed.

(** For every command byte: when the device echoes it and then stays
    silent, [read_resp] returns the empty list, raising nothing, after
    the settle delay and sixteen sleeps of the poll loop. *)
Lemma read_resp_quiet {D} c fuel (w w2 : World D) :
  (15 < fuel)%nat →
  read_serial 1 fuel (sent c w) = Ok [Hex.of_byte c] w2 →
  quiet (dev w2) → rx w2 = [] →
  ∃ w', read_resp (Hex.of_byte c) 100 fuel w = Ok (Some []) w' ∧
        naps w' = (naps w2 ++ repeat 100%N 17)%list.
Proof.
  intros Hf Hr Q R. unfold read_resp.
  erewrite bind_run by apply write_serial_byte.
  erewrite bind_run by exact Hr.
  cbn [String.concat]. rewrite String.eqb_refl.
  erewrite bind_run by reflexivity.
  destruct (sleep_quiet 100 fuel w2 Q R) as (w3 & E3 & Q3 & R3 & N3).
  erewrite bind_run by exact E3.
  destruct (poll_quiet fuel 15 fuel w3 ltac:(lia) Hf Q3 R3) as (w4 & E4 & Q4 & R4 & N4).
  erewrite bind_run by exact E4.
  destruct (s_in_waiting_quiet fuel w4 Q4 R4) as (w5 & E5 & Q5 & R5 & N5).
  erewrite bind_run by exact E5.
  erewrite bind_run by reflexivity.
  eexists. split; [reflexivity|].
  rewrite N5, N4, N3, <- List.app_assoc. reflexivity.
Qed.

(** C7 holds of the specification, not of the code: the device answers
    the command FD with the byte 00.  [read_resp] returns [None] without
    raising; the failure only surfaces in the caller, as the [TypeError]
    of joining [None]. *)
Theorem C7_echo_mismatch_returns_None :
  read_resp "fd" 100 20 (script [[x00]] [])
  = Ok None (mkWorld (D:=scripted) ([], []) [] [xfd] [] [] chip_map ∅)
  ∧ get_chip_id 20 (script [[x00]] [])
    = Raise TypeError (mkWorld (D:=scripted) ([], []) [] [xfd] [] [querying] chip_map ∅).
Proof. split; vm_compute; reflexivity. Qed.

(** C4 holds of the specification, not of the code: the device echoes FD
    and stays silent.  [read_resp] returns the empty list without
    raising, but it has slept 17 times 100 ms: the settle delay and then
    16 sleeps in the poll loop, one more than the 15 attempts (1.5 s)
    the loop is written for, because the counter is tested after the
    sleep. *)
Theorem C4_silent_device_sleeps_seventeen_times :
  read_resp "fd" 100 20 (script [[xfd]] [])
  = Ok (Some [])
      (mkWorld (D:=scripted) ([], []) [] [xfd] (repeat 100%N 17) [] chip_map ∅)
  ∧ poll 20 0 20 (mkWorld (D:=scripted) ([], []) [] [xfd] [100%N] [] chip_map ∅)
    = Ok 15%Z
        (mkWorld (D:=scripted) ([], []) [] [xfd] ([100%N] ++ repeat 100%N 16) [] chip_map ∅).
Proof. split; vm_compute; reflexivity. Qed.

(** ** Auth file and host qualification *)

Section Raises.

Context {D : Device} (P : Exn → Prop).

Lemma raises_ret {A} (a : A) : raises_only (D:=D) P (ret a).
Proof. intros fuel w e w' H. discriminate. Qed.

Lemma raises_raise {A} e : P e → raises_only (D:=D) P (raise (A:=A) e).
Proof. intros He fuel w e' w' H. now injection H as <- _. Qed.

Lemma raises_bind {A B} (m : M D A) (k : A → M D B) :
  raises_only P m → (∀ a, raises_only P (k a)) → raises_only P (bind m k).
Proof.
  intros Hm Hk fuel w e w' H. unfold bind in H.
  destruct (m fuel w) as [a w1|e1 w1|] eqn:E; [|injection H as <- _|discriminate].
  - exact (Hk a _ _ _ _ H).
  - exact (Hm _ _ _ _ E).
Qed.

Lemma raises_with_budget {A} (g : nat → M D A) :
  (∀ n, raises_only P (g n)) → raises_only P (with_budget g).
Proof. intros H fuel w. apply H. Qed.

Lemma raises_if {A} (b : bool) (m1 m2 : M D A) :
  raises_only P m1 → raises_only P m2 → raises_only P (if b then m1 else m2).
Proof. now destruct b. Qed.

Lemma raises_of_option {A} e (o : option A) :
  P e → raises_only (D:=D) P (of_option e o).
Proof. intros He. destruct o; [apply raises_ret | now apply raises_raise]. Qed.

Lemma raises_s_write bs : raises_only (D:=D) P (s_write bs).
Proof. intros fuel w e w' H. discriminate. Qed.

Lemma raises_print line : raises_only (D:=D) P (print line).
Proof. intros fuel w e w' H. discriminate. Qed.

Lemma raises_block_read n : raises_only (D:=D) P (block_read n).
Proof.
  intros fuel. induction n as [|n IH]; intros w e w' H; simpl in H;
    destruct (rx w); try discriminate. exact (IH _ _ _ H).
Qed.

Lemma raises_s_read1 : raises_only (D:=D) P s_read1.
Proof. apply raises_with_budget, raises_block_read. Qed.

Create HintDb raises discriminated.
Hint Resolve raises_ret raises_bind raises_if raises_s_write raises_print
  raises_s_read1 raises_of_option : raises.

Hypothesis value_error : P ValueError.

Lemma raises_write_serial_raw data nowrite :
  raises_only (D:=D) P (write_serial_raw data nowrite).
Proof.
  unfold write_serial_raw. apply raises_bind; [|intros; simpl; auto with raises].
  generalize (@nil string).
  induction data as [|b data IH]; intros sdata; simpl; auto 10 with raises.
Qed.
Hint Resolve raises_write_serial_raw : raises.

Lemma raises_write_serial data : raises_only (D:=D) P (write_serial data).
Proof. unfold write_serial. auto with raises. Qed.

Lemma raises_read_serial n : raises_only (D:=D) P (read_serial n).
Proof.
  unfold read_serial. apply raises_bind; [|intros; simpl; auto with raises].
  generalize (@nil string).
  induction n as [|n IH]; intros acc; simpl; auto with raises.
Qed.
Hint Resolve raises_write_serial raises_read_serial : raises.

Lemma raises_for_each {A} (l : list A) (body : A → M D unit) :
  (∀ x, raises_only P (body x)) → raises_only P (for_each l body).
Proof. intros H. induction l as [|x l IH]; simpl; auto with raises. Qed.

Lemma raises_qualify_host : raises_only (D:=D) P qualify_host.
Proof.
  unfold qualify_host.
  repeat first [ solve [auto with raises] | apply raises_for_each; intros ?
               | apply raises_if | apply raises_bind; [|intros ?] ].
Qed.

End Raises.

(** Whatever the device does, [qualify_host] never ends in [sys.exit]:
    no mismatch aborts the session. *)
Lemma qualify_host_never_exits {D} fuel (w w' : World D) code :
  qualify_host fuel w ≠ Raise (SystemExit code) w'.
Proof.
  intros H.
  now apply (raises_qualify_host (λ e, e = ValueError) eq_refl) in H.
Qed.

(** C9 holds of the specification, not of the code: [qualify_host]
    returns normally, with nothing printed, both when the command byte E3
    is answered by another byte and when the frame 00000100 is echoed
    wrongly. *)
Theorem C9_qualify_host_returns_on_mismatch :
  qualify_host 1 (script [[x00]] [])
  = Ok PyNone (mkWorld (D:=scripted) ([], []) [] [xe3] [] [qualify_banner] chip_map ∅)
  ∧ qualify_host 1
      (script [xe3 :: repeat x00 22; [x00]; [x00]; [x01]; [xff]] [])
    = Ok PyNone
        (mkWorld (D:=scripted) ([], []) [] [xe3; x00; x00; x01; x00] []
           [qualify_banner] chip_map ∅).
Proof. split; vm_compute; reflexivity. Qed.

(** The sibling exchange does abort: each of the three checks of
    [send_auth_file] ends in [sys.exit(0)] when it fails. *)
Lemma send_auth_file_aborts_on_mismatch :
  send_auth_file 1 (script [[x00]] [])
  = Raise (SystemExit 0)
      (mkWorld (D:=scripted) ([], []) [] [xe2] []
         [auth_banner; "Send Auth File failed! Aborting."] chip_map ∅)
  ∧ send_auth_file 1 (script [[xe2]; [x00]; [x00]; [x08]; [xff]] [])
    = Raise (SystemExit 0)
        (mkWorld (D:=scripted) ([], []) [] [xe2; x00; x00; x08; xd0] []
           [auth_banner; "Bad command! Aborting."] chip_map ∅)
  ∧ send_auth_file 1
      (mkWorld (D:=scripted)
         ([[xe2]; [x00]; [x00]; [x08]; [xd0; x00; x00]; [x00; x00; x00; x01]], [])
         [] [] [] [] chip_map {[ "auth_sv5.auth" := [xaa] ]})
    = Raise (SystemExit 0)
        (mkWorld (D:=scripted) ([], []) [] [xe2; x00; x00; x08; xd0; xaa] []
           [auth_banner; "Failed to send auth file! Aborting."] chip_map
           {[ "auth_sv5.auth" := [xaa] ]}).
Proof. repeat apply conj; vm_compute; reflexivity. Qed.

(** ** DA transfer *)

Section Chunks.

Context {D : Device} (c : nat) (ba : list byte).

Lemma send_chunks_run k : ∀ i fuel (w : World D),
  for_each (seq i k) (send_chunk c ba) fuel w
  = Ok tt (sent_all (take (k * c) (drop (i * c) ba)) w).
Proof.
  induction k as [|k IH]; intros i fuel w; cbn [seq for_each].
  - reflexivity.
  - unfold send_chunk at 1. cbn [py_slice].
    erewrite bind_run by (erewrite bind_run by reflexivity; apply write_serial_raw_run).
    rewrite IH, sent_all_app. do 2 f_equal. unfold slice.
    replace ((i + 1) * c - i * c) with c by lia.
    replace (S i * c) with (i * c + c) by lia.
    rewrite <- drop_drop, take_take_drop. f_equal; lia.
Qed.

End Chunks.

(** What the transfer loop of [send_da] does when it is given the image
    as bytes: it sends the first [len / 8192] whole chunks, in order,
    and never the remainder. *)
Lemma send_da_body_bytes {D} ba fuel (w : World D) :
  send_da_body (PyBytes ba) fuel w
  = Ok tt (sent_all (take (length ba / CHUNK * CHUNK) ba) w).
Proof.
  unfold send_da_body. erewrite bind_run by reflexivity.
  generalize CHUNK. intros c.
  change (for_each (seq 0 (length ba / c)) (send_chunk c ba) fuel w = 
          Ok tt (sent_all (take (length ba / c * c) ba) w)).
  now rewrite send_chunks_run.
Qed.

(** [load_da] never hands the image back. *)
Lemma load_da_returns_None {D} fuel (w w' : World D) v :
  load_da fuel w = Ok v w' → v = PyNone.
Proof.
  unfold load_da. intros H.
  apply bind_Ok_inv in H as (f & w1 & _ & H). now injection H as <- _.
Qed.

Lemma send_da_body_None {D} fuel (w : World D) :
  send_da_body PyNone fuel w = Raise TypeError w.
Proof. reflexivity. Qed.

Lemma final_bind_inv {D A B} (m : M D A) (k : A → M D B) fuel (w w' : World D) :
  final (bind m k fuel w) = Some w' →
  (∃ e, m fuel w = Raise e w') ∨
  (∃ a w1, m fuel w = Ok a w1 ∧ final (k a fuel w1) = Some w').
Proof.
  unfold bind. destruct (m fuel w) as [a w1|e w1|]; simpl; intros H.
  - right. now exists a, w1.
  - left. exists e. congruence.
  - discriminate.
Qed.

Lemma keeps_tx_load_da {D} : keeps (D:=D) tx load_da.
Proof.
  assert (∀ n f, keeps (D:=D) tx (load_da_records n f)) as R.
  { induction n as [|n IH]; intros f; cbn [load_da_records]; [apply keeps_ret|].
    destruct (f_read 4 f) as [bs f'].
    repeat first [ apply keeps_of_option | apply keeps_tx_print | apply IH
                 | apply keeps_bind; [|intros ?] ]. }
  unfold load_da, load_da_locals, read_file.
  repeat first [ apply keeps_of_option | apply keeps_tx_print | apply R
               | apply keeps_ret | apply keeps_get_world
               | match goal with
                 | |- keeps _ (let (_, _) := ?x in _) => destruct x
                 end
               | apply keeps_bind; [|intros ?] ].
Qed.

(** For every device and every DA file: however [send_da] ends, what it
    has sent is a prefix of its thirteen command-frame bytes -- never a
    byte of the image. *)
Lemma send_da_never_sends_image {D} fuel (w w' : World D) :
  final (send_da fuel w) = Some w' →
  ∃ k, tx w' = (tx w ++ take k da_frames)%list.
Proof.
  assert (∀ n (w1 w2 : World D) (r : Res D (list string)) k,
            tx w1 = (tx w ++ take k da_frames)%list →
            read_serial n fuel w1 = r → final r = Some w2 →
            tx w2 = (tx w ++ take k da_frames)%list) as Rd.
  { intros n w1 w2 r k T <- F.
    pose proof (keeps_tx_read_serial n fuel w1) as K. rewrite F in K. congruence. }
  unfold send_da. intros H.
  apply final_bind_inv in H as [[e E]|(? & w0 & E & H)]; [discriminate|].
  injection E as _ <-.
  apply final_bind_inv in H as [[e E]|(? & w1 & E & H)];
    [rewrite (write_serial_run [xd7]) in E; discriminate|].
  rewrite (write_serial_run [xd7]) in E. injection E as _ <-.
  assert (tx (sent_all [xd7] (printed (nl +:+ "Send DA") w))
          = (tx w ++ take 1 da_frames)%list) as T1 by now rewrite tx_sent_all.
  apply final_bind_inv in H as [[e E]|(r & w2 & E & H)];
    [exists 1; now apply (Rd _ _ _ _ _ T1 E)|].
  pose proof (Rd _ _ _ _ _ T1 E eq_refl) as T2. clear E T1.
  destruct (String.eqb _ "d7"); [|injection H as <-; now exists 1].
  apply final_bind_inv in H as [[e E]|(? & w3 & E & H)];
    [rewrite (write_serial_run [x00; x20; x00; x00]) in E; discriminate|].
  rewrite (write_serial_run [x00; x20; x00; x00]) in E. injection E as _ <-.
  assert (tx (sent_all [x00; x20; x00; x00] w2) = (tx w ++ take 5 da_frames)%list) as T3
    by (rewrite tx_sent_all, T2, <- List.app_assoc; reflexivity).
  apply final_bind_inv in H as [[e E]|(r3 & w4 & E & H)];
    [exists 5; now apply (Rd _ _ _ _ _ T3 E)|].
  pose proof (Rd _ _ _ _ _ T3 E eq_refl) as T4. clear E T3.
  destruct (negb _); [injection H as <-; now exists 5|].
  apply final_bind_inv in H as [[e E]|(? & w5 & E & H)];
    [rewrite (write_serial_run [x00; x03; x61; xa8]) in E; discriminate|].
  rewrite (write_serial_run [x00; x03; x61; xa8]) in E. injection E as _ <-.
  assert (tx (sent_all [x00; x03; x61; xa8] w4) = (tx w ++ take 9 da_frames)%list) as T5
    by (rewrite tx_sent_all, T4, <- List.app_assoc; reflexivity).
  apply final_bind_inv in H as [[e E]|(r5 & w6 & E & H)];
    [exists 9; now apply (Rd _ _ _ _ _ T5 E)|].
  pose proof (Rd _ _ _ _ _ T5 E eq_refl) as T6. clear E T5.
  destruct (negb _); [injection H as <-; now exists 9|].
  apply final_bind_inv in H as [[e E]|(? & w7 & E & H)];
    [rewrite (write_serial_run [x00; x00; x01; x00]) in E; discriminate|].
  rewrite (write_serial_run [x00; x00; x01; x00]) in E. injection E as _ <-.
  assert (tx (sent_all [x00; x00; x01; x00] w6) = (tx w ++ take 13 da_frames)%list) as T7
    by (rewrite tx_sent_all, T6, <- List.app_assoc; reflexivity).
  apply final_bind_inv in H as [[e E]|(r7 & w8 & E & H)];
    [exists 13; now apply (Rd _ _ _ _ _ T7 E)|].
  pose proof (Rd _ _ _ _ _ T7 E eq_refl) as T8. clear E T7.
  destruct (negb _); [injection H as <-; now exists 13|].
  apply final_bind_inv in H as [[e E]|(r8 & w9 & E & H)];
    [exists 13; now apply (Rd _ _ _ _ _ T8 E)|].
  pose proof (Rd _ _ _ _ _ T8 E eq_refl) as T9. clear E T8.
  assert (∀ (res : Res D PyVal) w10, load_da fuel w9 = res → final res = Some w10 →
                                     tx w10 = tx w9) as Ld.
  { intros res w10 <- F. pose proof (keeps_tx_load_da fuel w9) as K.
    now rewrite F in K. }
  apply final_bind_inv in H as [[e E]|(ba & w10 & E & H)];
    [exists 13; rewrite <- T9; now apply (Ld _ _ E)|].
  pose proof (Ld _ _ E eq_refl) as T10.
  apply load_da_returns_None in E as ->.
  apply final_bind_inv in H as [[e E]|(? & w11 & E & H)]; [discriminate|].
  injection E as _ <-.
  apply final_bind_inv in H as [[e E]|(? & w12 & E & H)]; [|discriminate].
  injection E as _ <-. exists 13. cbn [tx printed printed_all]. congruence.
Qed.

(** C1 holds of the specification, not of the code: with a DA image of
    16384 bytes (and likewise 16385) and a device that echoes every
    command frame, [send_da] sends the thirteen bytes of its command
    frames and then stops with a [TypeError]: [load_da] has no [return],
    so the image it is meant to hand over is [None] and [len(ba)] fails
    before any chunk is written. *)
Theorem C1_send_da_sends_no_chunk :
  (length (da_image_padded 16384) = N.to_nat 16384 ∧
   ∃ w', send_da 1 (da_session 16384) = Raise TypeError w' ∧
         tx w' = da_frames ∧
         last (stdout w') = Some "Loaded DA. Sending...")
  ∧ (length (da_image_padded 16385) = N.to_nat 16385 ∧
     ∃ w', send_da 1 (da_session 16385) = Raise TypeError w' ∧
           tx w' = da_frames ∧
           last (stdout w') = Some "Loaded DA. Sending...").
Proof.
  split; (split; [vm_compute; reflexivity|]);
    eexists; (split; [vm_compute; reflexivity|]); split; reflexivity.
Qed.

(** * Further properties of the code *)

(** ** The transport functions by themselves *)

Lemma sent_all_rest {D} bs : ∀ w : World D,
  naps (sent_all bs w) = naps w ∧ stdout (sent_all bs w) = stdout w ∧
  cur_chip_map (sent_all bs w) = cur_chip_map w ∧ files (sent_all bs w) = files w.
Proof.
  induction bs as [|b bs IH]; intros w; cbn [sent_all fold_left]; [easy|].
  fold (sent_all bs (sent b w)). destruct (IH (sent b w)) as (-> & -> & -> & ->).
  unfold sent, deliver. now destruct (react D (Wrote b) (dev w)).
Qed.

(** X1: [write_serial] on the hexadecimal text of any byte sequence hands
    exactly those bytes to the port, in order, and does nothing else: no
    sleep, no output, no change to the chip table or the files. *)
Theorem write_serial_transmits {D} bs fuel (w : World D) :
  ∃ w', write_serial (Hex.of_bytes bs) fuel w = Ok tt w' ∧
        tx w' = (tx w ++ bs)%list ∧ naps w' = naps w ∧ stdout w' = stdout w ∧
        cur_chip_map w' = cur_chip_map w ∧ files w' = files w.
Proof.
  exists (sent_all bs w). split; [apply write_serial_run|].
  split; [apply tx_sent_all | apply sent_all_rest].
Qed.

Lemma space_no_digit (c : ascii) : Hex.is_space c = true → Hex.digit_val c = None.
Proof. destruct c as [[] [] [] [] [] [] [] []]; (discriminate || reflexivity). Qed.

Lemma fromhex_odd (s : string) :
  (Nat.odd (Hex.solid s) = true → Hex.fromhex s = None) ∧
  (∀ c, Nat.odd (Hex.solid (String c s)) = true → Hex.fromhex (String c s) = None).
Proof.
  induction s as [|a s [IH1 IH2]].
  - split; [discriminate|]. intros c. cbn [Hex.solid Hex.fromhex].
    now destruct (Hex.is_space c).
  - split; [apply IH2|]. intros c. cbn [Hex.solid Hex.fromhex].
    destruct (Hex.is_space c); [apply IH2|].
    destruct (Hex.is_space a) eqn:Ea.
    + intros _. rewrite (space_no_digit a Ea). now destruct (Hex.digit_val c).
    + rewrite Nat.odd_succ, Nat.even_succ. intros H. rewrite (IH1 H).
      now destruct (Hex.digit_val c), (Hex.digit_val a).
Qed.

(** X2: text with an odd number of characters that are not white space
    is refused: [write_serial] raises [ValueError] before a single byte
    is written.  (White space itself is skipped between bytes, so it is
    these characters that count, not the length.) *)
Theorem write_serial_odd_length {D} data fuel (w : World D) :
  Nat.odd (Hex.solid data) = true →
  write_serial data fuel w = Raise ValueError w.
Proof.
  intros H. unfold write_serial.
  apply bind_raise. now rewrite (proj1 (fromhex_odd data) H).
Qed.

Lemma write_serial_odd_length_witness :
  write_serial "a0 0" 0 (script [] []) = Raise ValueError (script [] []).
Proof. apply write_serial_odd_length. reflexivity. Defined.

Lemma write_serial_raw_go_dry {D} data : ∀ sdata fuel (w : World D),
  write_serial_raw_go data true sdata fuel w
  = Ok (sdata ++ map Hex.of_byte data)%list w.
Proof.
  induction data as [|b data IH]; intros sdata fuel w; cbn [write_serial_raw_go].
  - unfold ret. now rewrite List.app_nil_r.
  - erewrite bind_run by reflexivity.
    rewrite IH. cbn [map]. now rewrite <- List.app_assoc.
Qed.

(** X3: with [nowrite] set, [write_serial_raw] is a dry run: whatever
    the data, the world is left exactly as it was. *)
Theorem write_serial_raw_dry_run {D} data fuel (w : World D) :
  write_serial_raw data true fuel w = Ok tt w.
Proof.
  unfold write_serial_raw.
  erewrite bind_run by apply write_serial_raw_go_dry. reflexivity.
Qed.

(** X4: when at least [n] bytes are buffered, [read_serial n] returns
    the hexadecimal text of the first [n] of them, in order, leaves the
    others buffered, and does so on any budget: it does not wait and the
    device is not consulted. *)
Theorem read_serial_takes_buffered {D} n fuel (w : World D) :
  (n ≤ length (rx w))%nat →
  read_serial n fuel w
  = Ok (map Hex.of_byte (take n (rx w))) (with_rx (drop n (rx w)) w).
Proof.
  intros H. unfold read_serial.
  pose proof (read_serial_go_buffered (take n (rx w)) (drop n (rx w)) [] fuel w) as R.
  rewrite length_take, Nat.min_l in R by exact H.
  erewrite bind_run by (apply R; now rewrite take_drop). reflexivity.
Qed.

Lemma read_serial_takes_buffered_witness :
  read_serial 2 0 (with_rx [x07; x66; x00] (script [] []))
  = Ok ["07"; "66"] (with_rx [x00] (script [] [])).
Proof.
  apply (read_serial_takes_buffered 2 0 (with_rx [x07; x66; x00] (script [] []))).
  vm_compute. lia.
Defined.

Lemma block_read_quiet {D} n fuel : ∀ w : World D,
  quiet (dev w) → rx w = [] → block_read n fuel w = Diverge.
Proof.
  induction n as [|n IH]; intros w Q R; cbn [block_read]; rewrite R; [reflexivity|].
  destruct (deliver_quiet Idle w Q R I) as (Q' & R' & _). now apply IH.
Qed.

(** X5: a read has no time-out: on a device that stays silent, with
    nothing buffered, [read_serial] of one byte or more has not returned
    whatever the budget. *)
Theorem read_serial_blocks_when_quiet {D} n fuel (w : World D) :
  quiet (dev w) → rx w = [] → read_serial (S n) fuel w = Diverge.
Proof.
  intros Q R. unfold read_serial. cbn [read_serial_go].
  unfold bind at 1. unfold bind at 1. unfold s_read1, with_budget.
  now rewrite block_read_quiet.
Qed.

Lemma scripted_quiet : quiet (D:=scripted) ([], []).
Proof.
  intros evs H. induction H as [|ev evs P _ IH]; [reflexivity|].
  destruct ev; [destruct P|..]; exact IH.
Qed.

Lemma read_serial_blocks_when_quiet_witness :
  read_serial 1 1000 (script [] []) = Diverge.
Proof. apply read_serial_blocks_when_quiet; [exact scripted_quiet | reflexivity]. Defined.

(** ** Decoding answers *)

Lemma u8_bound (b : byte) : (0 ≤ u8 b < 256)%Z.
Proof. unfold u8. pose proof (Byte.to_N_bounded b). lia. Qed.

Lemma int_from_bytes_big_snoc (bs : list byte) (b : byte) :
  int_from_bytes_big (bs ++ [b]) = (int_from_bytes_big bs * 256 + u8 b)%Z.
Proof. unfold int_from_bytes_big. now rewrite fold_left_app. Qed.

Lemma int_from_bytes_big_bound (bs : list byte) :
  (0 ≤ int_from_bytes_big bs < 256 ^ Z.of_nat (length bs))%Z.
Proof.
  induction bs as [|b bs IH] using rev_ind; [cbn; lia|].
  rewrite int_from_bytes_big_snoc, length_app, Nat2Z.inj_add, Z.pow_add_r by lia.
  cbn [length]. change (256 ^ Z.of_nat 1)%Z with 256%Z.
  pose proof (u8_bound b). nia.
Qed.

(** X6: whatever [read_serial] returns is text that [bstr_to_int]
    accepts: for a read of [n] bytes the decoded number is the big-endian
    value of the bytes read and lies in [0, 256^n); decoding changes
    nothing in the world. *)
Theorem bstr_to_int_of_read_serial {D} n fuel (w w' : World D) r :
  read_serial n fuel w = Ok r w' →
  ∃ bs, length bs = n ∧ r = map Hex.of_byte bs ∧
        (∀ fuel' (w'' : World D),
           bstr_to_int (Some r) fuel' w'' = Ok (int_from_bytes_big bs) w'') ∧
        (0 ≤ int_from_bytes_big bs < 256 ^ Z.of_nat n)%Z.
Proof.
  intros H. apply read_serial_hex in H as (bs & -> & <-).
  exists bs. repeat split; try apply int_from_bytes_big_bound.
  intros. apply bstr_to_int_hex.
Qed.

Lemma bstr_to_int_of_read_serial_witness :
  ∃ bs, length bs = 2 ∧ ["07"; "66"] = map Hex.of_byte bs ∧
        (∀ fuel' (w'' : World scripted),
           bstr_to_int (Some ["07"; "66"]) fuel' w'' = Ok (int_from_bytes_big bs) w'') ∧
        (0 ≤ int_from_bytes_big bs < 256 ^ Z.of_nat 2)%Z.
Proof.
  apply (bstr_to_int_of_read_serial 2 0 (with_rx [x07; x66; x00] (script [] []))
           (with_rx [x00] (script [] []))).
  vm_compute. reflexivity.
Defined.

(** ** The poll loop on any device *)

Lemma deliver_naps {D} ev (w : World D) : naps (deliver ev w) = naps w.
Proof. unfold deliver. now destruct (react D ev (dev w)). Qed.

Lemma s_in_waiting_run {D} fuel (w : World D) :
  s_in_waiting fuel w = Ok (length (rx (deliver Idle w))) (deliver Idle w).
Proof. reflexivity. Qed.

Lemma sleep_run {D} ms fuel (w : World D) :
  ∃ w', sleep ms fuel w = Ok tt w' ∧
        naps w' = (naps w ++ [ms])%list ∧ tx w' = tx w.
Proof.
  eexists. split; [reflexivity|]. cbn [naps tx].
  now rewrite deliver_naps, deliver_tx.
Qed.

(** Started with counter [15 - j], the poll loop ends on a budget above
    [j], whatever the device does, after at most [j + 1] sleeps. *)
Lemma poll_bounded {D} fuel j : ∀ n (w : World D),
  (j ≤ 15)%nat → (j < n)%nat →
  ∃ ctr w' i, poll n (15 - Z.of_nat j) fuel w = Ok ctr w' ∧ (i ≤ S j)%nat ∧
              naps w' = (naps w ++ repeat 100%N i)%list ∧ tx w' = tx w.
Proof.
  induction j as [|j IH]; intros n w Hj Hn;
    (destruct n as [|n]; [lia|]); cbn [poll];
    rewrite (bind_run _ _ _ _ _ _ (s_in_waiting_run fuel w));
    destruct (length (rx (deliver Idle w))) as [|k]; cbn [Nat.eqb].
  - destruct (sleep_run 100 fuel (deliver Idle w)) as (w2 & E2 & N2 & T2).
    erewrite bind_run by exact E2.
    exists 15%Z, w2, 1%nat. repeat split; [lia| |].
    + now rewrite N2, deliver_naps.
    + now rewrite T2, deliver_tx.
  - exists (15 - Z.of_nat 0)%Z, (deliver Idle w), 0%nat.
    repeat split; [lia| |apply deliver_tx].
    now rewrite deliver_naps, List.app_nil_r.
  - destruct (sleep_run 100 fuel (deliver Idle w)) as (w2 & E2 & N2 & T2).
    erewrite bind_run by exact E2.
    destruct (Z.eqb_spec (15 - Z.of_nat (S j)) 15) as [|_]; [lia|].
    replace (15 - Z.of_nat (S j) + 1)%Z with (15 - Z.of_nat j)%Z by lia.
    destruct (IH n w2 ltac:(lia) ltac:(lia)) as (ctr & w3 & i & E3 & Hi & N3 & T3).
    exists ctr, w3, (S i). repeat split; [exact E3|lia| |].
    + rewrite N3, N2, deliver_naps, <- List.app_assoc. reflexivity.
    + now rewrite T3, T2, deliver_tx.
  - exists (15 - Z.of_nat (S j))%Z, (deliver Idle w), 0%nat.
    repeat split; [lia| |apply deliver_tx].
    now rewrite deliver_naps, List.app_nil_r.
Qed.

(** X7: on every device the wait of [read_resp] is bounded: once the
    command byte has been echoed, and on a budget of 16 or more,
    [read_resp] returns a list after the settle delay and at most 16
    further sleeps of 100 ms; it has sent the command byte and nothing
    else, and it leaves the receive buffer empty. *)
Theorem read_resp_bounded {D} c t fuel (w w2 : World D) :
  (15 < fuel)%nat →
  read_serial 1 fuel (sent c w) = Ok [Hex.of_byte c] w2 →
  ∃ r w' i, read_resp (Hex.of_byte c) t fuel w = Ok (Some r) w' ∧ (i ≤ 16)%nat ∧
            naps w' = (naps w2 ++ t :: repeat 100%N i)%list ∧
            tx w' = (tx w ++ [c])%list ∧ rx w' = [].
Proof.
  intros Hf Hr. unfold read_resp.
  erewrite bind_run by apply write_serial_byte.
  erewrite bind_run by exact Hr.
  cbn [String.concat]. rewrite String.eqb_refl.
  erewrite bind_run by reflexivity.
  destruct (sleep_run t fuel w2) as (w3 & E3 & N3 & T3).
  erewrite bind_run by exact E3.
  destruct (poll_bounded fuel 15 fuel w3 ltac:(lia) Hf) as (ctr & w4 & i & E4 & Hi & N4 & T4).
  erewrite bind_run by exact E4.
  erewrite bind_run by apply s_in_waiting_run.
  erewrite bind_run by apply read_serial_buffered.
  exists (map Hex.of_byte (rx (deliver Idle w4))), (with_rx [] (deliver Idle w4)), i.
  split; [reflexivity|]. split; [lia|]. cbn [naps tx rx with_rx].
  rewrite deliver_naps, deliver_tx, N4, N3, T4, T3, <- List.app_assoc.
  rewrite (keeps_Ok tx _ _ _ _ _ (keeps_tx_read_serial 1) Hr), tx_sent.
  repeat split.
Qed.

Lemma read_resp_bounded_witness :
  ∃ r w' i,
    read_resp "fd" 100 16 (script [[xfd]] [[]; []; id_bytes]) = Ok (Some r) w' ∧
    (i ≤ 16)%nat ∧
    naps w' = (naps (mkWorld (D:=scripted) ([], [[]; []; id_bytes]) [] [xfd] [] []
                       chip_map ∅) ++ 100%N :: repeat 100%N i)%list ∧
    tx w' = (tx (script [[xfd]] [[]; []; id_bytes]) ++ [xfd])%list ∧ rx w' = [].
Proof.
  apply (read_resp_bounded xfd 100 16 (script [[xfd]] [[]; []; id_bytes])); [lia|].
  vm_compute. reflexivity.
Defined.

(** ** What the transport functions leave alone *)

Section Backstage.

Context {D : Device}.

Lemma deliver_backstage ev (w : World D) : backstage (deliver ev w) = backstage w.
Proof. unfold deliver, backstage. now destruct (react D ev (dev w)). Qed.

Lemma backstage_s_write bs : keeps (D:=D) backstage (s_write bs).
Proof.
  intros fuel w. unfold s_write, final. revert w.
  induction bs as [|b bs IH]; intros w; [reflexivity|].
  cbn [fold_left]. rewrite IH. unfold sent. apply deliver_backstage.
Qed.

Lemma backstage_s_in_waiting : keeps (D:=D) backstage s_in_waiting.
Proof. intros fuel w. apply deliver_backstage. Qed.

Lemma backstage_block_read n : keeps (D:=D) backstage (block_read n).
Proof.
  intros fuel. induction n as [|n IH]; intros w; simpl.
  - now destruct (rx w).
  - destruct (rx w); simpl; [|reflexivity].
    specialize (IH (deliver Idle w)).
    destruct (final (block_read n fuel (deliver Idle w))) as [w'|]; [|trivial].
    rewrite IH. apply deliver_backstage.
Qed.

Lemma backstage_sleep ms : keeps (D:=D) backstage (sleep ms).
Proof. intros fuel w. apply deliver_backstage. Qed.

Create HintDb backstage discriminated.
Hint Resolve keeps_ret keeps_raise keeps_diverge keeps_bind keeps_with_budget
  keeps_of_option keeps_if backstage_s_write backstage_s_in_waiting
  backstage_block_read backstage_sleep : backstage.

Lemma backstage_write_serial_raw data nowrite :
  keeps (D:=D) backstage (write_serial_raw data nowrite).
Proof.
  unfold write_serial_raw. apply keeps_bind; [|intros; simpl; auto with backstage].
  generalize (@nil string).
  induction data as [|b data IH]; intros sdata; simpl; auto 10 with backstage.
Qed.
Hint Resolve backstage_write_serial_raw : backstage.

Lemma backstage_write_serial data : keeps (D:=D) backstage (write_serial data).
Proof. unfold write_serial. auto with backstage. Qed.

Lemma backstage_read_serial n : keeps (D:=D) backstage (read_serial n).
Proof.
  unfold read_serial. apply keeps_bind; [|intros; simpl; auto with backstage].
  generalize (@nil string).
  induction n as [|n IH]; intros acc; simpl; [auto with backstage|].
  apply keeps_bind; [apply keeps_with_budget, backstage_block_read | intros; apply IH].
Qed.
Hint Resolve backstage_write_serial backstage_read_serial : backstage.

Lemma backstage_poll n ctr : keeps (D:=D) backstage (poll n ctr).
Proof. revert ctr. induction n as [|n IH]; intros ctr; simpl; auto 10 with backstage. Qed.
Hint Resolve backstage_poll : backstage.

Lemma backstage_read_resp cmd t : keeps (D:=D) backstage (read_resp cmd t).
Proof. unfold read_resp. simpl. auto 20 with backstage. Qed.

Hint Resolve backstage_read_resp : backstage.

Lemma backstage_spin n : keeps (D:=D) backstage (spin n).
Proof. induction n as [|n IH]; simpl; auto 10 with backstage. Qed.

Lemma backstage_drain n : ∀ rdata, keeps (D:=D) backstage (drain n rdata).
Proof. induction n as [|n IH]; intros rdata; simpl; auto 10 with backstage. Qed.
Hint Resolve backstage_spin backstage_drain : backstage.

Lemma backstage_handshake_byte b rdata : keeps (D:=D) backstage (handshake_byte b rdata).
Proof. unfold handshake_byte. auto 20 with backstage. Qed.
Hint Resolve backstage_handshake_byte : backstage.

Lemma backstage_handshake_for cmd_bytes : ∀ rdata retry p,
  keeps (D:=D) backstage (handshake_for cmd_bytes rdata retry p).
Proof.
  induction cmd_bytes as [|b cmd_bytes IH]; intros rdata retry p; simpl;
    auto 10 with backstage.
Qed.
Hint Resolve backstage_handshake_for : backstage.

Lemma backstage_handshake_while n cmd_bytes : ∀ p,
  keeps (D:=D) backstage (handshake_while n cmd_bytes p).
Proof.
  induction n as [|n IH]; intros p; simpl; [auto with backstage|].
  apply keeps_bind; [auto with backstage|]. intros [[rd retry] q].
  destruct retry; auto with backstage.
Qed.

End Backstage.

(** X8: the transport functions act on the port only: however
    [write_serial], [read_serial] or [read_resp] end on any device --
    returning, raising, with a wrong echo or after a time-out -- they
    have printed nothing and the chip table and the files are as
    before. *)
Theorem transport_acts_on_port_only {D} fuel (w : World D) :
  (∀ data w', final (write_serial data fuel w) = Some w' → backstage w' = backstage w) ∧
  (∀ n w', final (read_serial n fuel w) = Some w' → backstage w' = backstage w) ∧
  (∀ cmd t w', final (read_resp cmd t fuel w) = Some w' → backstage w' = backstage w).
Proof.
  repeat split.
  - intros data w' H. pose proof (backstage_write_serial data fuel w) as K.
    now rewrite H in K.
  - intros n w' H. pose proof (backstage_read_serial n fuel w) as K.
    now rewrite H in K.
  - intros cmd t w' H. pose proof (backstage_read_resp cmd t fuel w) as K.
    now rewrite H in K.
Qed.

Lemma transport_acts_on_port_only_witness :
  backstage (mkWorld (D:=scripted) ([], []) [] [xfd] [] [] chip_map ∅)
  = backstage (script [[x00]] []).
Proof.
  apply (proj2 (proj2 (transport_acts_on_port_only 20 (script [[x00]] []))) "fd" 100%N).
  vm_compute. reflexivity.
Defined.

(** ** The fields [get_chip_id] decodes *)

(** Whenever both queries return and the first word selects the MT6765
    entry, [get_chip_id] returns that entry with the three fields cut
    out of the second word. *)
Lemma get_chip_id_found {D} fuel (w w1 w2 : World D) bs1 bs2 :
  table_static (cur_chip_map w) = chip_map →
  read_resp "fd" 100 fuel (printed querying w) = Ok (Some (map Hex.of_byte bs1)) w1 →
  read_resp "fc" 100 fuel w1 = Ok (Some (map Hex.of_byte bs2)) w2 →
  Z.shiftr (int_from_bytes_big bs1) 16 = 0x766%Z →
  ∃ w' desc,
    get_chip_id fuel w = Ok 0x766%Z w' ∧
    cur_chip_map w' !! 0x766%Z = Some desc ∧
    desc !! "name" = Some (FStr "MT6765") ∧
    desc !! "hw_sub_code"
      = Some (FInt (Z.shiftr (Z.shiftr (int_from_bytes_big bs2) 32) 16)) ∧
    desc !! "hw_version"
      = Some (FInt (Z.land (Z.shiftr (int_from_bytes_big bs2) 32) 0xFFFF)) ∧
    desc !! "sw_version" = Some (FInt (Z.land (int_from_bytes_big bs2) 0xFFFFFFFF)).
Proof.
  intros Hst H1 H2 Hk.
  pose proof (chip_queries_run _ _ _ _ _ _ H1 H2) as Hq.
  pose proof (chip_queries_table _ _ _ _ _ Hq) as Ht.
  rewrite (get_chip_id_after_queries _ _ _ _ _ Hq).
  rewrite <- Ht in Hst.
  destruct (static_entry _ Hst) as (d & Hd & Hid & Hname & Hcode).
  rewrite (chip_fill_found _ _ _ _ d) by now rewrite Hk.
  rewrite Hk. set (sub := int_from_bytes_big bs2).
  assert (augment 0x766 sub (cur_chip_map w2) !! 0x766%Z = Some (augmented sub d)) as Ha
    by now rewrite augment_lookup, Hd.
  assert (∀ key, ¬ derived_key key → augmented sub d !! key = d !! key) as S
    by (intros; now apply augmented_static).
  assert (¬ derived_key "name" ∧ ¬ derived_key "id" ∧ ¬ derived_key "hw_code")
    as (N1 & N2 & N3)
    by (unfold derived_key; repeat split; intros [|[|]]; discriminate).
  assert (augmented sub d !! "hw_sub_code" = Some (FInt (Z.shiftr (Z.shiftr sub 32) 16))) as F1.
  { unfold augmented. rewrite lookup_insert_ne by discriminate.
    rewrite lookup_insert_ne by discriminate. apply lookup_insert_eq. }
  assert (augmented sub d !! "hw_version" = Some (FInt (Z.land (Z.shiftr sub 32) 0xFFFF))) as F2.
  { unfold augmented. rewrite lookup_insert_ne by discriminate. apply lookup_insert_eq. }
  assert (augmented sub d !! "sw_version" = Some (FInt (Z.land sub 0xFFFFFFFF))) as F3.
  { unfold augmented. apply lookup_insert_eq. }
  erewrite (chip_report_run _ _ _ (augmented sub d) (FStr "MT6765") 0x766 0x6765);
    [|exact Ha|now rewrite S|now rewrite S|now rewrite S|exact F1|exact F2|exact F3].
  eexists. exists (augmented sub d). split; [reflexivity|]. split; [exact Ha|].
  rewrite S, Hname by assumption. now repeat split.
Qed.

Lemma shiftr_is_div (x : Z) (n : Z) : (0 ≤ n)%Z → Z.shiftr x n = (x / 2 ^ n)%Z.
Proof. intros. now apply Z.shiftr_div_pow2. Qed.

Lemma div_is (a b q r : Z) : (0 ≤ r < b)%Z → (a = b * q + r)%Z → (a / b = q)%Z.
Proof. intros Hr E. symmetry. apply (Z.div_unique a b q r); [now left | exact E]. Qed.

Lemma mod_is (a b q r : Z) : (0 ≤ r < b)%Z → (a = b * q + r)%Z → (a mod b = r)%Z.
Proof. intros Hr E. symmetry. apply (Z.mod_unique a b q r); [now left | exact E]. Qed.

(** X9: the layout [get_chip_id] assumes.  When the chip answers the
    first query with 07 66 and any two further bytes, and the second with
    eight bytes [b0 .. b7], the descriptor returned is the MT6765 one
    with hw_sub_code the big-endian value of [b0 b1], hw_version that of
    [b2 b3] and sw_version that of [b4 .. b7]; the two low bytes of the
    first answer play no part. *)
Theorem get_chip_id_field_layout {D} fuel (w w1 w2 : World D) c d b0 b1 b2 b3 b4 b5 b6 b7 :
  table_static (cur_chip_map w) = chip_map →
  read_resp "fd" 100 fuel (printed querying w)
  = Ok (Some (map Hex.of_byte [x07; x66; c; d])) w1 →
  read_resp "fc" 100 fuel w1
  = Ok (Some (map Hex.of_byte [b0; b1; b2; b3; b4; b5; b6; b7])) w2 →
  ∃ w' desc,
    get_chip_id fuel w = Ok 0x766%Z w' ∧
    cur_chip_map w' !! 0x766%Z = Some desc ∧
    desc !! "name" = Some (FStr "MT6765") ∧
    desc !! "hw_sub_code" = Some (FInt (int_from_bytes_big [b0; b1])) ∧
    desc !! "hw_version" = Some (FInt (int_from_bytes_big [b2; b3])) ∧
    desc !! "sw_version" = Some (FInt (int_from_bytes_big [b4; b5; b6; b7])).
Proof.
  intros Hst H1 H2.
  assert (∀ x, Z.land x 0xFFFF = x mod 2 ^ 16)%Z as L16
    by (intros; now rewrite <- (Z.land_ones _ 16)).
  assert (∀ x, Z.land x 0xFFFFFFFF = x mod 2 ^ 32)%Z as L32
    by (intros; now rewrite <- (Z.land_ones _ 32)).
  pose proof (u8_bound c). pose proof (u8_bound d).
  pose proof (u8_bound b0). pose proof (u8_bound b1). pose proof (u8_bound b2).
  pose proof (u8_bound b3). pose proof (u8_bound b4). pose proof (u8_bound b5).
  pose proof (u8_bound b6). pose proof (u8_bound b7).
  destruct (get_chip_id_found fuel w w1 w2 _ _ Hst H1 H2) as (w' & desc & E & Hd & Hn & F1 & F2 & F3).
  { rewrite shiftr_is_div by lia. unfold int_from_bytes_big. cbn [fold_left].
    fold (u8 c) (u8 d). change (Z.of_N (Byte.to_N x07)) with 7%Z.
    change (Z.of_N (Byte.to_N x66)) with 102%Z.
    change (2 ^ 16)%Z with 65536%Z.
    apply (div_is _ _ _ (u8 c * 256 + u8 d)); lia. }
  revert F1 F2 F3. rewrite L16, L32, !shiftr_is_div by lia.
  unfold int_from_bytes_big. cbn [fold_left].
  fold (u8 b0) (u8 b1) (u8 b2) (u8 b3) (u8 b4) (u8 b5) (u8 b6) (u8 b7).
  change (2 ^ 32)%Z with 4294967296%Z. change (2 ^ 16)%Z with 65536%Z.
  set (hi := (u8 b0 * 256 + u8 b1)%Z). set (mid := (u8 b2 * 256 + u8 b3)%Z).
  set (lo := (((u8 b4 * 256 + u8 b5) * 256 + u8 b6) * 256 + u8 b7)%Z).
  rewrite (div_is _ 4294967296 (hi * 65536 + mid) lo) by (subst hi mid lo; lia).
  rewrite (div_is _ 65536 hi mid) by (subst hi mid; lia).
  rewrite (mod_is _ 65536 hi mid) by (subst hi mid; lia).
  rewrite (mod_is _ 4294967296 (hi * 65536 + mid) lo) by (subst hi mid lo; lia).
  intros F1 F2 F3. exists w', desc.
  replace (0 * 256 + u8 b0)%Z with (u8 b0) by lia.
  replace (0 * 256 + u8 b2)%Z with (u8 b2) by lia.
  replace (0 * 256 + u8 b4)%Z with (u8 b4) by lia.
  now repeat split.
Qed.

Lemma get_chip_id_field_layout_witness :
  ∃ w' desc,
    get_chip_id 20 (script [[xfd]; [xfc]]
                      [[x07; x66; xab; xcd]; [x8a; x00; xca; x00; x00; x00; x00; x01]])
    = Ok 0x766%Z w' ∧
    cur_chip_map w' !! 0x766%Z = Some desc ∧
    desc !! "name" = Some (FStr "MT6765") ∧
    desc !! "hw_sub_code" = Some (FInt (int_from_bytes_big [x8a; x00])) ∧
    desc !! "hw_version" = Some (FInt (int_from_bytes_big [xca; x00])) ∧
    desc !! "sw_version" = Some (FInt (int_from_bytes_big [x00; x00; x00; x01])).
Proof.
  apply (get_chip_id_field_layout 20
           (script [[xfd]; [xfc]]
              [[x07; x66; xab; xcd]; [x8a; x00; xca; x00; x00; x00; x00; x01]])
           (mkWorld (D:=scripted)
              ([[xfc]], [[x8a; x00; xca; x00; x00; x00; x00; x01]]) [] [xfd] [100%N]
              [querying] chip_map ∅)
           (mkWorld (D:=scripted) ([], []) [] [xfd; xfc] [100%N; 100%N]
              [querying] chip_map ∅)
           xab xcd x8a x00 xca x00 x00 x00 x00 x01 chip_map_static);
    vm_compute; reflexivity.
Defined.

(** X10: a narrow second answer.  When the second query is answered by
    four bytes or fewer -- none at all after a time-out included -- the
    shift by 32 leaves nothing: the descriptor gets hw_sub_code 0 and
    hw_version 0, and the whole answer becomes sw_version. *)
Theorem get_chip_id_narrow_sub_word {D} fuel (w w1 w2 : World D) bs1 bs2 :
  table_static (cur_chip_map w) = chip_map →
  read_resp "fd" 100 fuel (printed querying w) = Ok (Some (map Hex.of_byte bs1)) w1 →
  read_resp "fc" 100 fuel w1 = Ok (Some (map Hex.of_byte bs2)) w2 →
  Z.shiftr (int_from_bytes_big bs1) 16 = 0x766%Z →
  (length bs2 ≤ 4)%nat →
  ∃ w' desc,
    get_chip_id fuel w = Ok 0x766%Z w' ∧
    cur_chip_map w' !! 0x766%Z = Some desc ∧
    desc !! "hw_sub_code" = Some (FInt 0) ∧
    desc !! "hw_version" = Some (FInt 0) ∧
    desc !! "sw_version" = Some (FInt (int_from_bytes_big bs2)).
Proof.
  intros Hst H1 H2 Hk Hlen.
  destruct (get_chip_id_found fuel w w1 w2 _ _ Hst H1 H2 Hk)
    as (w' & desc & E & Hd & Hn & F1 & F2 & F3).
  pose proof (int_from_bytes_big_bound bs2) as B.
  assert (256 ^ Z.of_nat (length bs2) ≤ 4294967296)%Z as P.
  { change 4294967296%Z with (256 ^ 4)%Z. apply Z.pow_le_mono_r; lia. }
  assert (Z.shiftr (int_from_bytes_big bs2) 32 = 0)%Z as S0.
  { rewrite shiftr_is_div by lia. apply Z.div_small.
    change (2 ^ 32)%Z with 4294967296%Z. lia. }
  rewrite S0 in F1, F2. rewrite Z.land_0_l in F2.
  change 0xFFFFFFFF%Z with (Z.ones 32) in F3.
  rewrite Z.land_ones, Z.mod_small in F3
    by (try change (2 ^ 32)%Z with 4294967296%Z; lia).
  now exists w', desc.
Qed.

Lemma get_chip_id_narrow_sub_word_witness :
  ∃ w' desc,
    get_chip_id 20 (script [[xfd]; [xfc]] [id_bytes; [x12; x34]]) = Ok 0x766%Z w' ∧
    cur_chip_map w' !! 0x766%Z = Some desc ∧
    desc !! "hw_sub_code" = Some (FInt 0) ∧
    desc !! "hw_version" = Some (FInt 0) ∧
    desc !! "sw_version" = Some (FInt (int_from_bytes_big [x12; x34])).
Proof.
  apply (get_chip_id_narrow_sub_word 20
           (script [[xfd]; [xfc]] [id_bytes; [x12; x34]])
           (mkWorld (D:=scripted) ([[xfc]], [[x12; x34]]) [] [xfd] [100%N]
              [querying] chip_map ∅)
           (mkWorld (D:=scripted) ([], []) [] [xfd; xfc] [100%N; 100%N]
              [querying] chip_map ∅)
           id_bytes [x12; x34] chip_map_static);
    try (vm_compute; reflexivity). vm_compute. lia.
Defined.

(** ** check_preloader *)


(** ** What the handshake puts on the wire *)

Lemma handshake_for_no_retry {D} cmd_bytes : ∀ rdata p fuel (w w' : World D) rdata' retry' p',
  handshake_for cmd_bytes rdata false p fuel w = Ok (rdata', retry', p') w' →
  retry' = false.
Proof.
  induction cmd_bytes as [|b cmd_bytes IH]; intros rdata p fuel w w' rdata' retry' p' H;
    simpl in H.
  - now injection H as _ <- _ _.
  - apply bind_Ok_inv in H as (rd & w1 & _ & H).
    destruct (String.eqb rd preloader_greet).
    + now injection H as _ <- _ _.
    + now apply IH in H.
Qed.

(** A pass that does not end on the greeting has sent every byte of the
    magic and has left the mode flag alone. *)
Lemma handshake_for_whole {D} cmd_bytes : ∀ rdata retry p fuel (w w' : World D) rdata' retry' p',
  handshake_for cmd_bytes rdata retry p fuel w = Ok (rdata', retry', p') w' →
  rdata' ≠ preloader_greet →
  tx w' = (tx w ++ cmd_bytes)%list ∧ p' = p.
Proof.
  induction cmd_bytes as [|b cmd_bytes IH];
    intros rdata retry p fuel w w' rdata' retry' p' H N; simpl in H.
  - injection H as _ _ <- <-. now rewrite List.app_nil_r.
  - apply bind_Ok_inv in H as (rd & w1 & Hb & H).
    destruct (String.eqb rd preloader_greet) eqn:G.
    + injection H as <- _ _ _. now apply String.eqb_eq in G.
    + destruct (IH _ _ _ _ _ _ _ _ _ H N) as (-> & ->).
      rewrite (handshake_byte_tx _ _ _ _ _ _ Hb). now rewrite <- List.app_assoc.
Qed.

(** A pass that asks for another one has sent the first byte only and
    has recorded Preloader mode. *)
Lemma handshake_for_again {D} b cmd_bytes rdata retry p fuel (w w' : World D) rdata' p' :
  handshake_for (b :: cmd_bytes) rdata retry p fuel w = Ok (rdata', true, p') w' →
  tx w' = (tx w ++ [b])%list ∧ p' = true.
Proof.
  intros H. simpl in H.
  apply bind_Ok_inv in H as (rd & w1 & Hb & H).
  destruct (String.eqb rd preloader_greet).
  - injection H as _ _ <- <-. split; [|reflexivity].
    exact (handshake_byte_tx _ _ _ _ _ _ Hb).
  - now apply handshake_for_no_retry in H.
Qed.

Lemma handshake_while_wire {D} n b cmd_bytes : ∀ p fuel (w w' : World D) rdata p',
  handshake_while n (b :: cmd_bytes) p fuel w = Ok (rdata, p') w' →
  rdata ≠ preloader_greet →
  ∃ k, tx w' = (tx w ++ repeat b k ++ b :: cmd_bytes)%list ∧
       p' = p || negb (Nat.eqb k 0).
Proof.
  induction n as [|n IH]; intros p fuel w w' rdata p' H N; [discriminate|].
  cbn [handshake_while] in H.
  apply bind_Ok_inv in H as ([[rd retry] q] & w1 & Hf & H).
  destruct retry.
  - destruct (handshake_for_again _ _ _ _ _ _ _ _ _ _ Hf) as (T & ->).
    destruct (IH _ _ _ _ _ _ H N) as (k & T' & ->).
    exists (S k). rewrite T', T. split; [|now rewrite orb_true_r].
    now rewrite <- List.app_assoc.
  - injection H as <- <- <-.
    destruct (handshake_for_whole _ _ _ _ _ _ _ _ _ _ Hf N) as (T & ->).
    exists 0%nat. now rewrite orb_false_r.
Qed.

(** X12: whenever [try_handshake] returns (accepted, or with the
    already-done warning), what it has sent is the byte A0 [k] times --
    one for each READY greeting -- followed by the whole magic
    A0 0A 50 05 once; and when it returns True the mode it prints is
    Preloader exactly when [k] is not 0. *)
Theorem try_handshake_wire {D} port fuel (w w' : World D) v :
  try_handshake port fuel w = Ok v w' →
  ∃ k, tx w' = (tx w ++ repeat xa0 k ++ magic_bytes)%list ∧
       (v = PyBool true →
        stdout w' = (stdout w ++
                     [attempting port;
                      "Handshake success! Found MTK device at " +:+ port;
                      "Device connected via " +:+
                        (if Nat.eqb k 0 then "BootROM" else "Preloader")])%list).
Proof.
  unfold try_handshake. intros H.
  rewrite (bind_run _ _ _ _ _ _ (print_run _ fuel w)) in H.
  fold (attempting port) in H.
  change (Hex.fromhex handshake_data) with (Some magic_bytes) in H.
  rewrite (bind_run _ _ _ _ magic_bytes (printed (attempting port) w)) in H
    by reflexivity.
  apply bind_Ok_inv in H as ([rdata p] & w1 & Hw & H).
  unfold with_budget in Hw.
  pose proof (backstage_handshake_while fuel magic_bytes false fuel
                (printed (attempting port) w)) as Kb.
  rewrite Hw in Kb. cbn [final] in Kb.
  apply (f_equal (λ t, fst (fst t))) in Kb. cbn [backstage fst] in Kb.
  unfold handshake_verdict in H.
  assert (rdata ≠ preloader_greet) as N.
  { intros ->. vm_compute in H. discriminate. }
  destruct (handshake_while_wire _ _ _ _ _ _ _ _ _ Hw N) as (k & T & ->).
  exists k. cbn [orb].
  destruct (String.eqb rdata handshake_magic).
  - injection H as <- <-. split; [exact T|]. intros _.
    simpl. rewrite Kb. simpl. rewrite <- !List.app_assoc.
    now destruct k.
  - destruct (String.eqb rdata handshake_data); [|discriminate].
    injection H as <- <-. split; [exact T|]. discriminate.
Qed.

Lemma try_handshake_wire_witness :
  ∃ k, tx (printed_all ["Handshake success! Found MTK device at COM1";
                        "Device connected via Preloader"]
             (after_handshake (xa0 :: magic_bytes) "COM1"))
       = (tx (script [greet_bytes; [x5f]; [xf5]; [xaf]; [xfa]] [])
          ++ repeat xa0 k ++ magic_bytes)%list ∧
       (PyBool true = PyBool true →
        stdout (printed_all ["Handshake success! Found MTK device at COM1";
                             "Device connected via Preloader"]
                  (after_handshake (xa0 :: magic_bytes) "COM1"))
        = (stdout (script [greet_bytes; [x5f]; [xf5]; [xaf]; [xfa]] []) ++
           [attempting "COM1";
            "Handshake success! Found MTK device at " +:+ "COM1";
            "Device connected via " +:+
              (if Nat.eqb k 0 then "BootROM" else "Preloader")])%list).
Proof.
  apply (try_handshake_wire "COM1" 5
           (script [greet_bytes; [x5f]; [xf5]; [xaf]; [xfa]] [])).
  vm_compute. reflexivity.
Defined.

(** ** The auth file and host qualification *)

Lemma bind_Raise_inv {D A B} (m : M D A) (k : A → M D B) fuel (w w' : World D) e :
  bind m k fuel w = Raise e w' →
  m fuel w = Raise e w' ∨ ∃ a w1, m fuel w = Ok a w1 ∧ k a fuel w1 = Raise e w'.
Proof.
  unfold bind. destruct (m fuel w) as [a w1|e1 w1|]; intros H;
    [|left; now injection H as <- <-|discriminate].
  right. now exists a, w1.
Qed.

Lemma sent_all_frame {D} bs (w : World D) :
  tx (sent_all bs w) = (tx w ++ bs)%list ∧
  stdout (sent_all bs w) = stdout w ∧ files (sent_all bs w) = files w.
Proof.
  split; [apply tx_sent_all|].
  pose proof (backstage_s_write bs 0 w) as K. cbn [s_write final] in K.
  fold (sent_all bs w) in K. unfold backstage in K.
  injection K as K1 _ K3. now split.
Qed.

(** Reading takes bytes from the device and touches nothing else; it
    never raises. *)
Lemma read_serial_frame {D} n fuel (w w' : World D) r :
  read_serial n fuel w = Ok r w' →
  tx w' = tx w ∧ stdout w' = stdout w ∧ files w' = files w.
Proof.
  intros H.
  pose proof (keeps_tx_read_serial n fuel w) as Kt.
  pose proof (backstage_read_serial n fuel w) as Kb.
  rewrite H in Kt, Kb. cbn [final] in Kt, Kb. unfold backstage in Kb.
  injection Kb as K1 _ K3. now repeat split.
Qed.

Lemma read_serial_no_raise {D} n fuel (w w' : World D) e :
  read_serial n fuel w ≠ Raise e w'.
Proof. intros H. exact (raises_read_serial (λ _, False) n fuel w e w' H). Qed.

(** X13: [send_auth_file] returns only after the whole auth file has
    gone out.  When it returns, the file exists and the host has sent
    the command E2, the length word 00 00 08 D0 -- whatever the length
    of the file is -- and then every byte of the file, and has printed
    its banner and the success line. *)
Theorem send_auth_file_success {D} fuel (w w' : World D) v :
  send_auth_file fuel w = Ok v w' →
  ∃ auth,
    files w !! auth_path = Some auth ∧
    v = PyNone ∧
    tx w' = (tx w ++ auth_frames ++ auth)%list ∧
    stdout w' = (stdout w ++ [auth_banner; "Auth file send success!"])%list.
Proof.
  unfold send_auth_file. intros H.
  rewrite (bind_run _ _ _ _ _ _ (print_run _ fuel w)) in H. fold auth_banner in H.
  rewrite (bind_run _ _ _ _ _ _ (write_serial_run [xe2] fuel _)) in H.
  destruct (sent_all_frame [xe2] (printed auth_banner w)) as (T1 & S1 & F1).
  apply bind_Ok_inv in H as (r1 & w2 & E & H).
  destruct (read_serial_frame _ _ _ _ _ E) as (T2 & S2 & F2). clear E.
  destruct (String.eqb _ "e2"); [|discriminate].
  rewrite (bind_run _ _ _ _ _ _ (write_serial_run [x00; x00; x08; xd0] fuel _)) in H.
  destruct (sent_all_frame [x00; x00; x08; xd0] w2) as (T3 & S3 & F3).
  apply bind_Ok_inv in H as (r2 & w4 & E & H).
  destruct (read_serial_frame _ _ _ _ _ E) as (T4 & S4 & F4). clear E.
  destruct (String.eqb _ "000008d0"); [|discriminate].
  apply bind_Ok_inv in H as (r3 & w5 & E & H).
  destruct (read_serial_frame _ _ _ _ _ E) as (T5 & S5 & F5). clear E.
  apply bind_Ok_inv in H as (auth & w6 & E & H).
  unfold load_auth_file, read_file, bind, get_world in E.
  destruct (files w5 !! "auth_sv5.auth") as [a|] eqn:Ef; [|discriminate].
  injection E as -> <-.
  rewrite (bind_run _ _ _ _ _ _ (write_serial_raw_run auth fuel _)) in H.
  destruct (sent_all_frame auth w5) as (T6 & S6 & F6).
  apply bind_Ok_inv in H as (r4 & w7 & E & H).
  destruct (read_serial_frame _ _ _ _ _ E) as (T7 & S7 & F7). clear E.
  apply bind_Ok_inv in H as (r5 & w8 & E & H).
  destruct (read_serial_frame _ _ _ _ _ E) as (T8 & S8 & F8). clear E.
  destruct (String.eqb _ "0000"); [|discriminate].
  injection H as <- <-. exists auth.
  split; [|split; [reflexivity|split]].
  - unfold auth_path. rewrite <- Ef, F5, F4, F3, F2, F1. reflexivity.
  - cbn [tx printed printed_all].
    rewrite T8, T7, T6, T5, T4, T3, T2, T1. cbn [tx printed printed_all].
    unfold auth_frames. now rewrite <- !List.app_assoc.
  - cbn [stdout printed printed_all].
    rewrite S8, S7, S6, S5, S4, S3, S2, S1. cbn [stdout printed printed_all].
    now rewrite <- !List.app_assoc.
Qed.

Lemma send_auth_file_success_witness :
  ∃ auth,
    files auth_world !! auth_path = Some auth ∧
    PyNone = PyNone ∧
    tx auth_done = (tx auth_world ++ auth_frames ++ auth)%list ∧
    stdout auth_done
    = (stdout auth_world ++ [auth_banner; "Auth file send success!"])%list.
Proof.
  apply (send_auth_file_success 1 auth_world auth_done PyNone).
  vm_compute. reflexivity.
Defined.



Lemma bind_diverge {D A B} (m : M D A) (k : A → M D B) fuel (w : World D) :
  m fuel w = Diverge → bind m k fuel w = Diverge.
Proof. unfold bind. now intros ->. Qed.

Lemma for_each_write_run {D A} bs (l : list A) : ∀ fuel (w : World D),
  for_each l (λ _, write_serial (Hex.of_bytes bs)) fuel w
  = Ok tt (sent_all (concat (repeat bs (length l))) w).
Proof.
  induction l as [|x l IH]; intros fuel w; [reflexivity|].
  cbn [for_each length repeat concat].
  rewrite (bind_run _ _ _ _ _ _ (write_serial_run bs fuel w)), IH.
  now rewrite sent_all_app.
Qed.


(** ** Short and truncated DA images *)

Lemma unpack_le32_short (bs : list byte) : (length bs < 4)%nat → unpack_le32 bs = None.
Proof.
  destruct bs as [|b0 [|b1 [|b2 [|b3 [|? ?]]]]]; simpl; intros H; try reflexivity; lia.
Qed.

Lemma f_read_short (pos : nat) (data : list byte) :
  (length data < pos + 4)%nat → unpack_le32 (f_read 4 (mkFile data pos)).1 = None.
Proof.
  intros H. apply unpack_le32_short. unfold f_read. cbn [f_data f_pos fst].
  rewrite length_take, length_drop. lia.
Qed.

(** Only the leading word of a record is read: the records are parsed
    as long as the leading word of the last one is in the file. *)
Lemma load_da_records_words {D} content n : ∀ pos fuel (w : World D),
  (220 * n + pos ≤ length content + 216)%nat →
  (n = 0 → pos ≤ length content)%nat →
  load_da_records n (mkFile content pos) fuel w
  = Ok (mkFile content (pos + 220 * n))
      (printed_all
         (map (λ i, da_line (Z.shiftr (word_at content (pos + 220 * i)) 16)) (seq 0 n))
         w).
Proof.
  induction n as [|n IH]; intros pos fuel w H H0.
  - cbn [load_da_records seq map]. rewrite printed_all_nil.
    unfold ret. do 2 f_equal. lia.
  - cbn [load_da_records]. rewrite f_read_run by lia.
    erewrite bind_run by (rewrite word_at_some by lia; reflexivity).
    erewrite bind_run
      by (rewrite split_x_1_py_hex
            by (apply Z.shiftr_nonneg, word_at_nonneg); reflexivity).
    erewrite bind_run by apply print_run.
    unfold f_seek, f_tell. cbn [f_data f_pos].
    replace (pos + 4 + 220 - 4) with (pos + 220) by lia.
    destruct n as [|n'].
    + cbn [load_da_records seq map]. unfold ret, printed. do 2 f_equal.
      now replace (pos + 220 * 0) with pos by lia.
    + rewrite IH by lia. unfold printed. rewrite printed_all_app.
      f_equal; [f_equal; lia|]. f_equal.
      cbn [seq map]. rewrite <- !seq_shift, !map_map.
      change ([?x] ++ ?l)%list with (x :: l). f_equal.
      * now replace (pos + 220 * 0) with pos by lia.
      * f_equal; [f_equal; f_equal; f_equal; lia|].
        apply map_ext. intros i.
        now replace (pos + 220 + 220 * S i) with (pos + 220 * S (S i)) by lia.
Qed.

Lemma load_da_records_truncated {D} content m : ∀ n pos fuel (w : World D),
  (m < n)%nat →
  (length content < pos + 220 * m + 4)%nat →
  (220 * m + pos ≤ length content + 216)%nat →
  load_da_records n (mkFile content pos) fuel w
  = Raise StructError
      (printed_all
         (map (λ i, da_line (Z.shiftr (word_at content (pos + 220 * i)) 16)) (seq 0 m))
         w).
Proof.
  induction m as [|m IH]; intros n pos fuel w Hmn Hlt Hge;
    (destruct n as [|n]; [lia|]); cbn [load_da_records].
  - pose proof (f_read_short pos content ltac:(lia)) as E.
    destruct (f_read 4 (mkFile content pos)) as [bs f]. cbn [fst] in E.
    rewrite E. cbn [seq map]. now rewrite printed_all_nil.
  - rewrite f_read_run by lia.
    erewrite bind_run by (rewrite word_at_some by lia; reflexivity).
    erewrite bind_run
      by (rewrite split_x_1_py_hex
            by (apply Z.shiftr_nonneg, word_at_nonneg); reflexivity).
    erewrite bind_run by apply print_run.
    unfold f_seek, f_tell. cbn [f_data f_pos].
    replace (pos + 4 + 220 - 4) with (pos + 220) by lia.
    rewrite (IH n) by lia. unfold printed. rewrite printed_all_app.
    f_equal. f_equal.
    cbn [seq map]. rewrite <- seq_shift, map_map.
    change ([?x] ++ ?l)%list with (x :: l). f_equal.
    + now replace (pos + 220 * 0) with pos by lia.
    + apply map_ext. intros i.
      now replace (pos + 220 + 220 * i) with (pos + 220 * S i) by lia.
Qed.

Lemma load_da_header_run {D} fuel (w : World D) content :
  files w !! da_path = Some content →
  load_da fuel w
  = bind (let (bs, f) := f_read 4 (mkFile content 0x68) in
          bind (of_option StructError (unpack_le32 bs))
            (λ da_count,
               bind (load_da_records (Z.to_nat da_count) f)
                 (λ f, bind (print ("  Loaded DA!" +:+ nl +:+ "  Found " +:+
                                    pretty da_count +:+ " supported chips."))
                         (λ _, bind (print "==============================")
                                 (λ _, ret f)))))
      (λ _, ret PyNone) fuel (printed_all da_header w).
Proof.
  intros Hfile. unfold load_da, load_da_locals.
  unfold bind at 1.
  erewrite bind_run by (apply read_file_run; exact Hfile).
  do 5 (erewrite bind_run by apply print_run).
  unfold printed. rewrite !printed_all_app. reflexivity.
Qed.

(** X16: [load_da] reads only the four leading bytes of each record.
    A header that announces [n] records is listed in full as soon as
    the leading word of the last record is in the file, whether or not
    the rest of that record is; the function prints its footer and
    returns None. *)
Theorem load_da_reads_leading_words {D} fuel (w : World D) content n :
  files w !! da_path = Some content →
  unpack_le32 (take 4 (drop 0x68 content)) = Some (Z.of_nat n) →
  (0x68 + 4 + 220 * n ≤ length content + 216)%nat →
  load_da fuel w
  = Ok PyNone
      (printed_all (da_header ++ map da_line (da_codes content n) ++ da_footer n) w).
Proof.
  intros Hfile Hcount Hlen.
  assert (0x68 + 4 ≤ length content)%nat as L4.
  { destruct (Nat.le_gt_cases (0x68 + 4) (length content)) as [|Lt]; [assumption|].
    rewrite unpack_le32_short in Hcount; [discriminate|].
    rewrite length_take, length_drop. lia. }
  rewrite (load_da_header_run _ _ _ Hfile).
  rewrite f_read_run by lia.
  unfold bind at 1.
  erewrite bind_run by (rewrite Hcount; reflexivity).
  rewrite Nat2Z.id.
  erewrite bind_run by (apply load_da_records_words; lia).
  do 2 (erewrite bind_run by apply print_run).
  unfold ret. f_equal. unfold printed. rewrite !printed_all_app.
  f_equal. unfold da_footer, da_codes. rewrite map_map.
  reflexivity.
Qed.

Lemma load_da_reads_leading_words_witness :
  load_da 0 da_world_cut
  = Ok PyNone
      (printed_all (da_header ++ map da_line (da_codes da_image_cut 2) ++ da_footer 2)
         da_world_cut).
Proof.
  apply (load_da_reads_leading_words 0 da_world_cut da_image_cut 2);
    [vm_compute; reflexivity | vm_compute; reflexivity | vm_compute; lia].
Defined.

(** X17: a header that announces more records than the file holds.
    When the file ends before the end of the leading word of record
    [m], with [m] below the announced count, [load_da] lists the [m]
    records before it and then fails with [struct.error]; the footer
    is never printed. *)
Theorem load_da_truncated {D} fuel (w : World D) content n m :
  files w !! da_path = Some content →
  unpack_le32 (take 4 (drop 0x68 content)) = Some (Z.of_nat n) →
  (m < n)%nat →
  (length content < 0x68 + 4 + 220 * m + 4)%nat →
  (0x68 + 4 + 220 * m ≤ length content + 216)%nat →
  load_da fuel w
  = Raise StructError
      (printed_all (da_header ++ map da_line (da_codes content m)) w).
Proof.
  intros Hfile Hcount Hmn Hlt Hge.
  assert (0x68 + 4 ≤ length content)%nat as L4.
  { destruct (Nat.le_gt_cases (0x68 + 4) (length content)) as [|Lt]; [assumption|].
    rewrite unpack_le32_short in Hcount; [discriminate|].
    rewrite length_take, length_drop. lia. }
  rewrite (load_da_header_run _ _ _ Hfile).
  rewrite f_read_run by lia.
  unfold bind at 1.
  erewrite bind_run by (rewrite Hcount; reflexivity).
  rewrite Nat2Z.id.
  erewrite bind_raise by (apply (load_da_records_truncated content m); lia).
  f_equal. rewrite printed_all_app. f_equal. f_equal.
  unfold da_codes. now rewrite map_map.
Qed.

Lemma load_da_truncated_witness :
  load_da 0 da_world_lying
  = Raise StructError
      (printed_all (da_header ++ map da_line (da_codes da_image_lying 1)) da_world_lying).
Proof.
  apply (load_da_truncated 0 da_world_lying da_image_lying 3 1);
    [vm_compute; reflexivity | vm_compute; reflexivity | lia
    | vm_compute; lia | vm_compute; lia].
Defined.

(** X18: an image too short to hold the record count at offset 0x68
    makes [load_da] fail with [struct.error] once its five banner lines
    are out.  Seeking past the end of the file is no error. *)
Theorem load_da_short_image {D} fuel (w : World D) content :
  files w !! da_path = Some content →
  (length content < 0x68 + 4)%nat →
  load_da fuel w = Raise StructError (printed_all da_header w).
Proof.
  intros Hfile Hlt.
  rewrite (load_da_header_run _ _ _ Hfile).
  pose proof (f_read_short 0x68 content Hlt) as E.
  destruct (f_read 4 (mkFile content 0x68)) as [bs f]. cbn [fst] in E.
  unfold bind at 1. erewrite bind_raise; [reflexivity|]. now rewrite E.
Qed.

Lemma load_da_short_image_witness :
  load_da 0 da_world_short = Raise StructError (printed_all da_header da_world_short).
Proof.
  apply (load_da_short_image 0 da_world_short [xda; xda]);
    [vm_compute; reflexivity | vm_compute; lia].
Defined.

(** ** The DA transfer *)

(** X19: [send_da] returns only on a wrong echo.  When it returns it
    has printed nothing but its banner and has sent the command D7 and
    zero, one, two or all three of its parameter words; once every echo
    has matched and the DA file is being loaded there is no normal
    return. *)
Theorem send_da_returns_only_on_mismatch {D} fuel (w w' : World D) v :
  send_da fuel w = Ok v w' →
  v = PyNone ∧
  stdout w' = (stdout w ++ [da_banner])%list ∧
  ∃ k, In k [1; 5; 9; 13] ∧ tx w' = (tx w ++ take k da_frames)%list.
Proof.
  unfold send_da. intros H.
  rewrite (bind_run _ _ _ _ _ _ (print_run _ fuel w)) in H. fold da_banner in H.
  rewrite (bind_run _ _ _ _ _ _ (write_serial_run [xd7] fuel _)) in H.
  destruct (sent_all_frame [xd7] (printed da_banner w)) as (T1 & S1 & _).
  cbn [tx stdout printed printed_all] in T1, S1.
  apply bind_Ok_inv in H as (r1 & w2 & E & H).
  destruct (read_serial_frame _ _ _ _ _ E) as (T2 & S2 & _). clear E.
  rewrite T1 in T2. rewrite S1 in S2.
  destruct (String.eqb _ "d7");
    [|injection H as <- <-; split; [reflexivity|split; [exact S2|]];
      exists 1; split; [now left|exact T2]].
  rewrite (bind_run _ _ _ _ _ _ (write_serial_run [x00; x20; x00; x00] fuel _)) in H.
  destruct (sent_all_frame [x00; x20; x00; x00] w2) as (T3 & S3 & _).
  rewrite T2, <- List.app_assoc in T3. rewrite S2 in S3.
  apply bind_Ok_inv in H as (r3 & w4 & E & H).
  destruct (read_serial_frame _ _ _ _ _ E) as (T4 & S4 & _). clear E.
  rewrite T3 in T4. rewrite S3 in S4.
  destruct (negb _);
    [injection H as <- <-; split; [reflexivity|split; [exact S4|]];
     exists 5; split; [right; now left|exact T4]|].
  rewrite (bind_run _ _ _ _ _ _ (write_serial_run [x00; x03; x61; xa8] fuel _)) in H.
  destruct (sent_all_frame [x00; x03; x61; xa8] w4) as (T5 & S5 & _).
  rewrite T4, <- List.app_assoc in T5. rewrite S4 in S5.
  apply bind_Ok_inv in H as (r5 & w6 & E & H).
  destruct (read_serial_frame _ _ _ _ _ E) as (T6 & S6 & _). clear E.
  rewrite T5 in T6. rewrite S5 in S6.
  destruct (negb _);
    [injection H as <- <-; split; [reflexivity|split; [exact S6|]];
     exists 9; split; [right; right; now left|exact T6]|].
  rewrite (bind_run _ _ _ _ _ _ (write_serial_run [x00; x00; x01; x00] fuel _)) in H.
  destruct (sent_all_frame [x00; x00; x01; x00] w6) as (T7 & S7 & _).
  rewrite T6, <- List.app_assoc in T7. rewrite S6 in S7.
  apply bind_Ok_inv in H as (r7 & w8 & E & H).
  destruct (read_serial_frame _ _ _ _ _ E) as (T8 & S8 & _). clear E.
  rewrite T7 in T8. rewrite S7 in S8.
  destruct (negb _);
    [injection H as <- <-; split; [reflexivity|split; [exact S8|]];
     exists 13; split; [right; right; right; now left|exact T8]|].
  exfalso.
  apply bind_Ok_inv in H as (r9 & w9 & _ & H).
  apply bind_Ok_inv in H as (ba & w10 & E & H).
  apply load_da_returns_None in E as ->.
  apply bind_Ok_inv in H as (? & w11 & _ & H).
  apply bind_Ok_inv in H as (? & w12 & E & _).
  rewrite send_da_body_None in E. discriminate.
Qed.

Lemma send_da_returns_only_on_mismatch_witness :
  PyNone = PyNone ∧
  stdout (mkWorld (D:=scripted) ([], []) [] [xd7; x00; x20; x00; x00] []
            [da_banner] chip_map ∅)
  = (stdout (script [[xd7]; [x00]; [x20]; [x00]; [xff]] []) ++ [da_banner])%list ∧
  ∃ k, In k [1; 5; 9; 13] ∧
       tx (mkWorld (D:=scripted) ([], []) [] [xd7; x00; x20; x00; x00] []
             [da_banner] chip_map ∅)
       = (tx (script [[xd7]; [x00]; [x20]; [x00]; [xff]] []) ++ take k da_frames)%list.
Proof.
  apply (send_da_returns_only_on_mismatch 1
           (script [[xd7]; [x00]; [x20]; [x00]; [xff]] [])).
  vm_compute. reflexivity.
Defined.

(** X20: the transfer loop of [send_da], given the image as bytes,
    sends it in order up to the last multiple of 8192 and leaves the
    remaining [len mod 8192] bytes unsent. *)
Theorem send_da_body_drops_tail {D} ba fuel (w : World D) :
  ∃ w',
    send_da_body (PyBytes ba) fuel w = Ok tt w' ∧
    tx w' = (tx w ++ take (length ba - length ba mod CHUNK) ba)%list.
Proof.
  exists (sent_all (take (length ba / CHUNK * CHUNK) ba) w).
  split; [apply send_da_body_bytes|].
  rewrite tx_sent_all.
  assert (CHUNK ≠ 0) as NZ by discriminate.
  pose proof (Nat.div_mod (length ba) CHUNK NZ) as E.
  do 2 f_equal. lia.
Qed.

(** ** serial_ports *)

Lemma probe_filter h _ports : ∀ result,
  probe h _ports result = (result ++ List.filter (can_open h) _ports)%list.
Proof.
  induction _ports as [|p l IH]; intros result; cbn [probe List.filter].
  - now rewrite List.app_nil_r.
  - rewrite IH. destruct (can_open h p); [|reflexivity].
    now rewrite <- List.app_assoc.
Qed.

Lemma filter_map_comm {A B} (f : A → B) (p : B → bool) (l : list A) :
  List.filter p (map f l) = map f (List.filter (λ x, p (f x)) l).
Proof.
  induction l as [|x l IH]; cbn [map List.filter]; [reflexivity|].
  rewrite IH. now destruct (p (f x)).
Qed.

Lemma filter_seq_sorted (p : nat → bool) n : ∀ a,
  StronglySorted lt (List.filter p (seq a n)) ∧
  Forall (λ k, a ≤ k < a + n)%nat (List.filter p (seq a n)).
Proof.
  induction n as [|n IH]; intros a; cbn [seq List.filter].
  - split; constructor.
  - destruct (IH (S a)) as (S1 & F1).
    assert (Forall (λ k, a < k ∧ a ≤ k < a + S n)%nat (List.filter p (seq (S a) n))) as F2.
    { eapply List.Forall_impl; [|exact F1]. cbn beta. intros k Hk. lia. }
    destruct (p a).
    + split.
      * constructor; [exact S1|]. eapply List.Forall_impl; [|exact F2]. cbn beta. tauto.
      * constructor; [lia|]. eapply List.Forall_impl; [|exact F2]. cbn beta. tauto.
    + split; [exact S1|]. eapply List.Forall_impl; [|exact F2]. cbn beta. tauto.
Qed.

(** X21: on a platform whose name starts with "win", nothing is
    globbed: the result lists ports COM<k> with [k] between 1 and 256,
    in strictly increasing order of [k] -- so no port twice -- and each
    of them could be opened. *)
Theorem serial_ports_windows (h : Host) :
  String.prefix "win" (platform h) = true →
  ∃ ks,
    serial_ports h = inr (map com_port ks) ∧
    StronglySorted lt ks ∧
    Forall (λ k, (1 ≤ k ≤ 256)%nat ∧ can_open h (com_port k) = true) ks.
Proof.
  intros Hw. unfold serial_ports, candidate_ports. rewrite Hw.
  exists (List.filter (λ k, can_open h (com_port k)) (seq 1 256)).
  split; [|split].
  - rewrite probe_filter. cbn [app]. f_equal.
    rewrite <- (map_map (λ i, i + 1) com_port).
    replace (map (λ i, i + 1) (seq 0 256)) with (seq 1 256)
      by (rewrite <- seq_shift; apply map_ext; intros; lia).
    apply filter_map_comm.
  - apply filter_seq_sorted.
  - apply List.Forall_forall. intros k Hk. apply List.filter_In in Hk as (Hin & Ho).
    apply in_seq in Hin. split; [lia|exact Ho].
Qed.

Lemma serial_ports_windows_witness :
  ∃ ks,
    serial_ports win_host = inr (map com_port ks) ∧
    StronglySorted lt ks ∧
    Forall (λ k, (1 ≤ k ≤ 256)%nat ∧ can_open win_host (com_port k) = true) ks.
Proof. apply (serial_ports_windows win_host). vm_compute. reflexivity. Defined.

(** X22: whatever the platform, [serial_ports] returns the candidates
    that open, in the order the platform lists them and as often as it
    lists them, and probes failing in between are skipped silently; in
    particular a platform listing no port twice yields no port twice. *)
Theorem serial_ports_probes_in_order (h : Host) _ports :
  candidate_ports h = inr _ports →
  ∃ result,
    serial_ports h = inr result ∧
    sublist result _ports ∧
    (∀ port, port ∈ result ↔ port ∈ _ports ∧ can_open h port = true) ∧
    (NoDup _ports → NoDup result).
Proof.
  intros Hc. unfold serial_ports. rewrite Hc, probe_filter. cbn [app].
  exists (List.filter (can_open h) _ports). split; [reflexivity|].
  split; [|split].
  - clear Hc. induction _ports as [|p l IH]; cbn [List.filter]; [constructor|].
    destruct (can_open h p); now constructor.
  - intros port. rewrite !list_elem_of_In. apply List.filter_In.
  - intros N. apply NoDup_ListNoDup, List.NoDup_filter. now apply NoDup_ListNoDup.
Qed.

Lemma serial_ports_probes_in_order_witness :
  ∃ result,
    serial_ports linux_host = inr result ∧
    sublist result ["/dev/ttyS0"; "/dev/ttyUSB0"] ∧
    (∀ port, port ∈ result ↔
             port ∈ ["/dev/ttyS0"; "/dev/ttyUSB0"] ∧ can_open linux_host port = true) ∧
    (NoDup ["/dev/ttyS0"; "/dev/ttyUSB0"] → NoDup result).
Proof.
  apply (serial_ports_probes_in_order linux_host ["/dev/ttyS0"; "/dev/ttyUSB0"]).
  vm_compute. reflexivity.
Defined.

(** ** The table is consulted after the second query *)

(** When the first query has returned and the device then neither
    echoes the second command nor sends anything else, [get_chip_id]
    waits for that echo: it has not returned, whatever the first word
    was. *)
Lemma get_chip_id_waits_for_second_echo {D} fuel (w w1 : World D) bs1 :
  read_resp "fd" 100 fuel (printed querying w) = Ok (Some (map Hex.of_byte bs1)) w1 →
  quiet (dev (sent xfc w1)) → rx (sent xfc w1) = [] →
  get_chip_id fuel w = Diverge.
Proof.
  intros H1 Q R. unfold get_chip_id.
  rewrite (bind_run _ _ _ _ _ _ (print_run _ fuel w)). fold querying.
  apply bind_diverge. unfold chip_queries.
  rewrite (bind_run _ _ _ _ _ _ H1).
  rewrite (bind_run _ _ _ _ _ _ (bstr_to_int_hex bs1 fuel w1)).
  apply bind_diverge. unfold read_resp.
  rewrite (bind_run _ _ _ _ _ _ (write_serial_byte xfc fuel w1)).
  apply bind_diverge. unfold read_serial. apply bind_diverge.
  cbn [read_serial_go]. apply bind_diverge.
  unfold s_read1, with_budget. now apply block_read_quiet.
Qed.

(** C3, as stated, fails for an unknown chip, because the table is
    consulted only after the second query.  The device answers the
    first query with 0x67650000, whose code 0x6765 is no key of the
    table.  When it then echoes the second command wrongly,
    [get_chip_id] ends in a [TypeError]; when it goes silent instead,
    [get_chip_id] waits for the echo on every budget and nothing is
    raised. *)
Lemma C3_unknown_chip_needs_second_answer :
  chip_map !! Z.shiftr (int_from_bytes_big unknown_bytes) 16 = None
  ∧ get_chip_id 20 (script [[xfd]; [x00]] [unknown_bytes])
    = Raise TypeError
        (mkWorld (D:=scripted) ([], []) [] [xfd; xfc] [100%N] [querying] chip_map ∅)
  ∧ ¬ unknown_chip_fails 20 (script [[xfd]; [x00]] [unknown_bytes])
  ∧ (∀ fuel, get_chip_id fuel (script [[xfd]] [unknown_bytes]) = Diverge)
  ∧ ¬ unknown_chip_fails 20 (script [[xfd]] [unknown_bytes]).
Proof.
  assert (∀ fuel, get_chip_id fuel (script [[xfd]] [unknown_bytes]) = Diverge) as Dv.
  { intros [|fuel]; [vm_compute; reflexivity|].
    apply (get_chip_id_waits_for_second_echo (S fuel) (script [[xfd]] [unknown_bytes])
             (mkWorld (D:=scripted) ([], []) [] [xfd] [100%N] [querying] chip_map ∅)
             unknown_bytes);
      [vm_compute; reflexivity | exact scripted_quiet | reflexivity]. }
  split; [vm_compute; reflexivity|].
  split; [vm_compute; reflexivity|].
  split; [|split; [exact Dv|]].
  - intros F.
    destruct (F unknown_bytes
                (mkWorld (D:=scripted) ([[x00]], []) [] [xfd] [100%N] [querying] chip_map ∅)
                ltac:(vm_compute; reflexivity) ltac:(vm_compute; reflexivity))
      as (w' & E).
    vm_compute in E. discriminate.
  - intros F.
    destruct (F unknown_bytes
                (mkWorld (D:=scripted) ([], []) [] [xfd] [100%N] [querying] chip_map ∅)
                ltac:(vm_compute; reflexivity) ltac:(vm_compute; reflexivity))
      as (w' & E).
    rewrite Dv in E. discriminate.
Qed.

(** C10, as stated, fails when it is the second query that stays
    unanswered: an MT6765 that answers the first query and only echoes
    the second is identified, with 0 in the three derived fields, and
    nothing is raised.  And when the first query stays unanswered, the
    look-up of code 0 is reached only if the second exchange returns:
    a wrong echo of the second command ends in a [TypeError], and a
    device that has gone silent altogether keeps [get_chip_id] waiting
    on every budget. *)
Lemma C10_silent_second_query_is_accepted :
  (∃ w' desc,
     get_chip_id 20 (script [[xfd]; [xfc]] [id_bytes]) = Ok 0x766%Z w' ∧
     cur_chip_map w' !! 0x766%Z = Some desc ∧
     desc !! "hw_sub_code" = Some (FInt 0) ∧
     desc !! "hw_version" = Some (FInt 0) ∧
     desc !! "sw_version" = Some (FInt 0))
  ∧ ¬ silent_query_fails 20 (script [[xfd]; [xfc]] [id_bytes])
  ∧ get_chip_id 20 (script [[xfd]; [x00]] [])
    = Raise TypeError
        (mkWorld (D:=scripted) ([], []) [] [xfd; xfc] (repeat 100%N 17) [querying]
           chip_map ∅)
  ∧ ¬ silent_query_fails 20 (script [[xfd]; [x00]] [])
  ∧ (∀ fuel, get_chip_id fuel (script [[xfd]] []) = Diverge).
Proof.
  split; [|split; [|split; [|split]]].
  - do 2 eexists. split; [vm_compute; reflexivity|].
    repeat split; vm_compute; reflexivity.
  - intros F. destruct F as (w' & E).
    { right.
      exists (map Hex.of_byte id_bytes),
        (mkWorld (D:=scripted) ([[xfc]], []) [] [xfd] [100%N] [querying] chip_map ∅),
        (mkWorld (D:=scripted) ([], []) [] [xfd; xfc] (repeat 100%N 18) [querying]
           chip_map ∅).
      split; vm_compute; reflexivity. }
    vm_compute in E. discriminate.
  - vm_compute. reflexivity.
  - intros F. destruct F as (w' & E).
    { left.
      exists (mkWorld (D:=scripted) ([[x00]], []) [] [xfd] (repeat 100%N 17) [querying]
                chip_map ∅).
      vm_compute. reflexivity. }
    vm_compute in E. discriminate.
  - intros fuel.
    do 17 (destruct fuel as [|fuel]; [vm_compute; reflexivity|]).
    apply (get_chip_id_waits_for_second_echo _ (script [[xfd]] [])
             (mkWorld (D:=scripted) ([], []) [] [xfd] (repeat 100%N 17) [querying]
                chip_map ∅) []);
      [vm_compute; reflexivity | exact scripted_quiet | reflexivity].
Qed.
